(** * The 3D solar-system block (src/block.tsx): model and properties

    The block is a React component tree rendered through react-three-fiber.
    The development below follows the source file top to bottom:

    - [JS]: JavaScript numbers and the built-in [parseFloat];
    - [Three]: the part of a three.js object that the code reads or writes
      (position and Euler rotation), geometries and materials;
    - the components [Sun], [Planet], [SaturnRings], [ControlPanel] and
      [Block]: what each one renders and what its [useFrame] callback does;
    - [Runtime]: mounting, re-rendering with keyed reconciliation, the frame
      loop, the timer queue behind [setTimeout]/[clearTimeout] and the
      messages handed to [postMessage];
    - [F64]: the arithmetic of the frame callbacks in binary64.

    Numbers.  The program computes in IEEE binary64, and the development has
    two layers.

    [Runtime] is about structure: what is rendered, which instances exist,
    what a re-render keeps, what a frame touches, when the timer fires and
    what is posted.  There a number is held as the rational its literal
    denotes ([NaN] apart, because [parseFloat] can return it), equality of
    numbers is [JS.num_eq], and a statement that mentions a number writes it
    as the code's own expression; no law of arithmetic is used.

    [F64] is about values: the table, the [speed] prop and the three
    [useFrame] callbacks over Rocq's primitive floats, which are binary64
    with round-to-nearest-even.  Every statement about the value of an angle
    is made there. *)

From Stdlib Require Import ZArith QArith String Ascii List Bool Lia.
From Stdlib Require Import Setoid Morphisms.
From Stdlib Require Floats.
Import ListNotations.

Set Implicit Arguments.

(* ===================================================================== *)
(** ** JavaScript numbers *)
(* ===================================================================== *)

Module JS.

Inductive number : Type :=
| NaN
| Fin (q : Q).

Definition mul (a b : number) : number :=
  match a, b with
  | Fin x, Fin y => Fin (x * y)
  | _, _ => NaN
  end.

Definition add (a b : number) : number :=
  match a, b with
  | Fin x, Fin y => Fin (x + y)
  | _, _ => NaN
  end.

Definition sub (a b : number) : number :=
  match a, b with
  | Fin x, Fin y => Fin (x - y)
  | _, _ => NaN
  end.

Definition neg (a : number) : number :=
  match a with
  | Fin x => Fin (- x)
  | NaN => NaN
  end.

(** Two numbers denote the same value.  ([NaN] is related to itself: this is
    sameness of the stored value, not the result of JavaScript's [===].) *)
Definition num_eq (a b : number) : Prop :=
  match a, b with
  | NaN, NaN => True
  | Fin x, Fin y => x == y
  | _, _ => False
  end.

Definition num_eqb (a b : number) : bool :=
  match a, b with
  | NaN, NaN => true
  | Fin x, Fin y => Qeq_bool x y
  | _, _ => false
  end.

(** [Math.PI] is the double 0x400921FB54442D18, that is
    884279719003555 / 2^48; halving a double is exact. *)
Definition Math_PI : number := Fin (884279719003555 # 281474976710656).
Definition Math_PI_half : number := Fin (884279719003555 # 562949953421312).

(** *** [parseFloat]

    The argument is trimmed of leading white space and the longest prefix
    that is a decimal literal is converted:
    [sign? (digits ("." digits?)? | "." digits) (("e"|"E") sign? digits)?].
    Without such a prefix the result is [NaN].  The literal [Infinity] is not
    covered (the number type has no infinities). *)

Definition is_digit (c : ascii) : bool :=
  let n := nat_of_ascii c in (48 <=? n)%nat && (n <=? 57)%nat.

Definition digit_value (c : ascii) : Z := Z.of_nat (nat_of_ascii c - 48).

Definition is_white_space (c : ascii) : bool :=
  let n := nat_of_ascii c in
  (n =? 32)%nat || ((9 <=? n)%nat && (n <=? 13)%nat).

Fixpoint skip_white_space (s : string) : string :=
  match s with
  | String c r => if is_white_space c then skip_white_space r else s
  | EmptyString => s
  end.

(** Reads a run of decimal digits: the digits read, most significant first,
    and the rest of the string. *)
Fixpoint take_digits (s : string) : list Z * string :=
  match s with
  | String c r =>
      if is_digit c
      then let (ds, rest) := take_digits r in (digit_value c :: ds, rest)
      else ([], s)
  | EmptyString => ([], s)
  end.

Definition digits_to_Z (ds : list Z) : Z :=
  fold_left (fun acc d => 10 * acc + d)%Z ds 0%Z.

(** An optional sign: [true] for "-". *)
Definition take_sign (s : string) : bool * string :=
  match s with
  | String "-"%char r => (true, r)
  | String "+"%char r => (false, r)
  | _ => (false, s)
  end.

Definition take_fraction (s : string) : list Z * string :=
  match s with
  | String "."%char r => take_digits r
  | _ => ([], s)
  end.

Definition take_exponent (s : string) : Z :=
  match s with
  | String c r =>
      if (c =? "e")%char || (c =? "E")%char
      then let (negative, r') := take_sign r in
           let (ds, _) := take_digits r' in
           match ds with
           | [] => 0%Z
           | _ => if negative then (- digits_to_Z ds)%Z else digits_to_Z ds
           end
      else 0%Z
  | EmptyString => 0%Z
  end.

Definition parseFloat (s : string) : number :=
  let (negative, s1) := take_sign (skip_white_space s) in
  let (int_part, s2) := take_digits s1 in
  let (frac_part, s3) := take_fraction s2 in
  match int_part, frac_part with
  | [], [] => NaN
  | _, _ =>
      let mantissa := inject_Z (digits_to_Z (int_part ++ frac_part)) in
      let scale := Qpower 10 (take_exponent s3 - Z.of_nat (length frac_part)) in
      let v := mantissa * scale in
      Fin (if negative then - v else v)
  end.

End JS.

Declare Scope num_scope.
Delimit Scope num_scope with num.
Bind Scope num_scope with JS.number.
Infix "*" := JS.mul : num_scope.
Infix "+" := JS.add : num_scope.
Infix "-" := JS.sub : num_scope.
Notation "a =n= b" := (JS.num_eq a b) (at level 70, no associativity).

Import JS.

(* ===================================================================== *)
(** ** three.js objects *)
(* ===================================================================== *)

Module Three.

Record Vector3 : Type := { vx : number; vy : number; vz : number }.

(** An Euler rotation: [rotation.x], [rotation.y], [rotation.z]. *)
Record Euler : Type := { ex : number; ey : number; ez : number }.

(** The transform of an [Object3D] ([Group] and [Mesh] are both objects). *)
Record Object3D : Type := { position : Vector3; rotation : Euler }.

Definition zero : number := Fin 0.

(** A freshly constructed object sits at the origin, unrotated. *)
Definition new_Object3D : Object3D :=
  {| position := {| vx := zero; vy := zero; vz := zero |};
     rotation := {| ex := zero; ey := zero; ez := zero |} |}.

(** [o.rotation.y = v] *)
Definition set_rotation_y (o : Object3D) (v : number) : Object3D :=
  {| position := position o;
     rotation := {| ex := ex (rotation o); ey := v; ez := ez (rotation o) |} |}.

Definition rotation_y (o : Object3D) : number := ey (rotation o).

Inductive Geometry : Type :=
| sphereGeometry (radius : number) (widthSegments heightSegments : Z)
| ringGeometry (innerRadius outerRadius : number) (thetaSegments : Z).

Inductive MaterialKind : Type := meshBasicMaterial | meshStandardMaterial.
Inductive Side : Type := FrontSide | BackSide.

Record Material : Type :=
  { kind : MaterialKind;
    color : string;
    transparent : bool;
    opacity : number;
    side : Side }.

(** A material given only its colour keeps the library defaults. *)
Definition plain (k : MaterialKind) (c : string) : Material :=
  {| kind := k; color := c; transparent := false; opacity := Fin 1;
     side := FrontSide |}.

(** The JSX of a [<mesh>]: the transform props that are present, its
    geometry and material, and the text of an [<Html>] label if it has one. *)
Record MeshProps : Type :=
  { mesh_position : option Vector3;
    mesh_rotation : option Euler;
    geometry : Geometry;
    material : Material;
    html_label : option string }.

(** The renderer writes a transform prop to the object when the prop is
    present and leaves the field alone otherwise. *)
Definition apply_props (m : MeshProps) (o : Object3D) : Object3D :=
  {| position := match mesh_position m with Some p => p | None => position o end;
     rotation := match mesh_rotation m with Some r => r | None => rotation o end |}.

End Three.

Import Three.

Open Scope string_scope.

(* ===================================================================== *)
(** ** The planet table *)
(* ===================================================================== *)

(** [interface PlanetProps]; the entries of [planetData] have the same
    (structural) type. *)
Record PlanetProps : Type :=
  { name : string;
    size : number;
    distance : number;
    color_ : string;
    speed : number }.

Definition planetData : list PlanetProps :=
  [ {| name := "Mercury"; size := Fin 0.1;  distance := Fin 2;  color_ := "#8C7853"; speed := Fin 0.02 |};
    {| name := "Venus";   size := Fin 0.15; distance := Fin 3;  color_ := "#FFC649"; speed := Fin 0.015 |};
    {| name := "Earth";   size := Fin 0.16; distance := Fin 4;  color_ := "#6B93D6"; speed := Fin 0.01 |};
    {| name := "Mars";    size := Fin 0.12; distance := Fin 5;  color_ := "#CD5C5C"; speed := Fin 0.008 |};
    {| name := "Jupiter"; size := Fin 0.5;  distance := Fin 7;  color_ := "#D8CA9D"; speed := Fin 0.005 |};
    {| name := "Saturn";  size := Fin 0.4;  distance := Fin 9;  color_ := "#FAD5A5"; speed := Fin 0.004 |};
    {| name := "Uranus";  size := Fin 0.25; distance := Fin 11; color_ := "#4FD0E7"; speed := Fin 0.003 |};
    {| name := "Neptune"; size := Fin 0.24; distance := Fin 13; color_ := "#4B70DD"; speed := Fin 0.002 |} ].

(* ===================================================================== *)
(** ** Sun *)
(* ===================================================================== *)

(** The state of a mounted [Sun]: the mesh held by [sunRef] ([None] while the
    ref is null). *)
Record SunInst : Type := { sunRef : option Object3D }.

Definition Sun_render : MeshProps :=
  {| mesh_position := Some {| vx := zero; vy := zero; vz := zero |};
     mesh_rotation := None;
     geometry := sphereGeometry (Fin 0.8) 32 32;
     material := plain meshBasicMaterial "#FDB813";
     html_label := Some "Sun" |}.

(** [useFrame(() => { if (sunRef.current) sunRef.current.rotation.y += 0.01 })] *)
Definition Sun_useFrame (s : SunInst) : SunInst :=
  {| sunRef :=
       match sunRef s with
       | Some o => Some (set_rotation_y o (rotation_y o + Fin 0.01))
       | None => None
       end |}.

(* ===================================================================== *)
(** ** Planet *)
(* ===================================================================== *)

(** What [Planet] returns: a [<group ref={planetRef}>] with two meshes, the
    body (held by [meshRef]) and the orbit line. *)
Record PlanetJSX : Type := { body_mesh : MeshProps; orbit_mesh : MeshProps }.

Definition Planet_render (p : PlanetProps) : PlanetJSX :=
  {| body_mesh :=
       {| mesh_position := Some {| vx := distance p; vy := zero; vz := zero |};
          mesh_rotation := None;
          geometry := sphereGeometry (size p) 16 16;
          material := plain meshStandardMaterial (color_ p);
          html_label := Some (name p) |};
     orbit_mesh :=
       {| mesh_position := None;
          mesh_rotation := Some {| ex := Math_PI_half; ey := zero; ez := zero |};
          geometry := ringGeometry (distance p - Fin 0.01) (distance p + Fin 0.01) 64;
          material := {| kind := meshBasicMaterial; color := "#333333";
                         transparent := true; opacity := Fin 0.3;
                         side := FrontSide |};
          html_label := None |} |}.

(** A mounted [Planet]: the props of its latest render, the group held by
    [planetRef] (the orbital pivot), the body mesh held by [meshRef], and the
    orbit-line mesh, to which the component keeps no ref. *)
Record PlanetInst : Type :=
  { planet_props : PlanetProps;
    planetRef : option Object3D;
    meshRef : option Object3D;
    orbitLine : Object3D }.

(** [[
  useFrame(({ clock }) => {
    if (planetRef.current) planetRef.current.rotation.y = clock.getElapsedTime() * speed;
    if (meshRef.current)   meshRef.current.rotation.y += 0.02;
  })
]]
    [elapsed] is the value of [clock.getElapsedTime()]; [speed] is the prop
    of the latest render. *)
Definition Planet_useFrame (elapsed : number) (i : PlanetInst) : PlanetInst :=
  {| planet_props := planet_props i;
     planetRef :=
       match planetRef i with
       | Some g => Some (set_rotation_y g (elapsed * speed (planet_props i)))
       | None => None
       end;
     meshRef :=
       match meshRef i with
       | Some m => Some (set_rotation_y m (rotation_y m + Fin 0.02))
       | None => None
       end;
     orbitLine := orbitLine i |}.

(* ===================================================================== *)
(** ** SaturnRings *)
(* ===================================================================== *)

Definition SaturnRings_render (d : number) : MeshProps :=
  {| mesh_position := Some {| vx := d; vy := zero; vz := zero |};
     mesh_rotation := Some {| ex := Math_PI_half; ey := zero; ez := zero |};
     geometry := ringGeometry (Fin 0.5) (Fin 0.7) 32;
     material := {| kind := meshStandardMaterial; color := "#FAD5A5";
                    transparent := true; opacity := Fin 0.7;
                    side := FrontSide |};
     html_label := None |}.

(** A mounted [SaturnRings]: its prop, the group held by [ringsRef] and the
    ring mesh inside it. *)
Record RingsInst : Type :=
  { rings_distance : number;
    ringsRef : option Object3D;
    ringMesh : Object3D }.

(** [[
  useFrame(({ clock }) => {
    if (ringsRef.current) ringsRef.current.rotation.y = clock.getElapsedTime() * 0.004;
  })
]] *)
Definition SaturnRings_useFrame (elapsed : number) (r : RingsInst) : RingsInst :=
  {| rings_distance := rings_distance r;
     ringsRef :=
       match ringsRef r with
       | Some g => Some (set_rotation_y g (elapsed * Fin 0.004))
       | None => None
       end;
     ringMesh := ringMesh r |}.

(* ===================================================================== *)
(** ** ControlPanel *)
(* ===================================================================== *)

(** A piece of rendered text: a literal, or a number formatted by
    [Number.prototype.toFixed]. *)
Inductive Text : Type :=
| Lit (s : string)
| toFixed (x : number) (fractionDigits : Z).

Module ControlPanel.

Section Props.
(** The state that the two callbacks act on; the component itself has
    none. *)
Variable S : Type.

Record Props : Type :=
  { animationSpeed : number;
    setAnimationSpeed : number -> S -> S;
    showOrbits : bool;
    setShowOrbits : bool -> S -> S }.

(** [onChange={(e) => setAnimationSpeed(parseFloat(e.target.value))}];
    [value] is [e.target.value]. *)
Definition onChange_range (p : Props) (value : string) : S -> S :=
  setAnimationSpeed p (parseFloat value).

(** [onChange={(e) => setShowOrbits(e.target.checked)}] *)
Definition onChange_checkbox (p : Props) (checked : bool) : S -> S :=
  setShowOrbits p checked.
End Props.

Record RangeInput : Type :=
  { range_min : string; range_max : string; range_step : string;
    range_value : number }.

Record View : Type :=
  { heading : string;
    speed_label : list Text;
    range : RangeInput;
    checkbox_checked : bool;
    checkbox_label : string;
    hints : list string }.

Definition render (S : Type) (p : Props S) : View :=
  {| heading := "Solar System Controls";
     speed_label := [Lit "Animation Speed: "; toFixed (animationSpeed p) 1; Lit "x"];
     range := {| range_min := "0"; range_max := "5"; range_step := "0.1";
                 range_value := animationSpeed p |};
     checkbox_checked := showOrbits p;
     checkbox_label := "Show Orbit Lines";
     hints := ["🖱️ Click and drag to rotate"; "🔍 Scroll to zoom"] |}.

End ControlPanel.

(* ===================================================================== *)
(** ** Block *)
(* ===================================================================== *)

(** The two [useState] cells of [Block]. *)
Record BlockState : Type := { animationSpeed : number; showOrbits : bool }.

Definition initial_state : BlockState :=
  {| animationSpeed := Fin 1; showOrbits := true |}.

Definition setAnimationSpeed (v : number) (st : BlockState) : BlockState :=
  {| animationSpeed := v; showOrbits := showOrbits st |}.

Definition setShowOrbits (b : bool) (st : BlockState) : BlockState :=
  {| animationSpeed := animationSpeed st; showOrbits := b |}.

(** One [<React.Fragment key={planet.name}>] of the [planetData.map]: a
    [Planet] and, when the condition holds, a [SaturnRings] with its
    [distance] prop. *)
Record FragmentElt : Type :=
  { key : string;
    planet_elt : PlanetProps;
    rings_elt : option number }.

Record OrbitControlsProps : Type :=
  { enablePan : bool; enableZoom : bool; enableRotate : bool;
    minDistance : number; maxDistance : number; autoRotate : bool }.

(** The children of [<Canvas>]. *)
Inductive Element : Type :=
| ambientLight (intensity : number)
| pointLight (at_ : Vector3) (intensity : number) (light_color : string)
| SunElt
| FragmentE (f : FragmentElt)
| meshElt (m : MeshProps)
| OrbitControls (c : OrbitControlsProps).

Definition Block_fragment (animationSpeed : number) (planet : PlanetProps)
  : FragmentElt :=
  {| key := name planet;
     planet_elt :=
       {| name := name planet;
          size := size planet;
          distance := distance planet;
          color_ := color_ planet;
          speed := speed planet * animationSpeed |};
     rings_elt :=
       if (name planet =? "Saturn")%string then Some (distance planet) else None |}.

Definition Block_canvas (table : list PlanetProps) (st : BlockState)
  : list Element :=
  [ ambientLight (Fin 0.2);
    pointLight {| vx := zero; vy := zero; vz := zero |} (Fin 2) "#FDB813";
    pointLight {| vx := Fin 10; vy := Fin 10; vz := Fin 10 |} (Fin 0.5) "white";
    SunElt ]
  ++ map (fun planet => FragmentE (Block_fragment (animationSpeed st) planet)) table
  ++ [ meshElt {| mesh_position := None; mesh_rotation := None;
                  geometry := sphereGeometry (Fin 100) 32 32;
                  material := {| kind := meshBasicMaterial; color := "#000033";
                                 transparent := true; opacity := Fin 0.8;
                                 side := BackSide |};
                  html_label := None |};
       OrbitControls {| enablePan := true; enableZoom := true;
                        enableRotate := true; minDistance := Fin 5;
                        maxDistance := Fin 50; autoRotate := false |} ].

Definition Block_panel_props (st : BlockState) : ControlPanel.Props BlockState :=
  {| ControlPanel.animationSpeed := animationSpeed st;
     ControlPanel.setAnimationSpeed := setAnimationSpeed;
     ControlPanel.showOrbits := showOrbits st;
     ControlPanel.setShowOrbits := setShowOrbits |}.

(** What [Block] returns: the control panel and the canvas (the info panel is
    constant text).  The props [title] and [description] are not read. *)
Record BlockView : Type :=
  { panel : ControlPanel.View;
    canvas : list Element }.

Definition Block_render (table : list PlanetProps) (st : BlockState) : BlockView :=
  {| panel := ControlPanel.render (Block_panel_props st);
     canvas := Block_canvas table st |}.

(** Selections from a render pass. *)
Definition fragments (es : list Element) : list FragmentElt :=
  flat_map (fun e => match e with FragmentE f => [f] | _ => [] end) es.

Definition count_suns (es : list Element) : nat :=
  length (filter (fun e => match e with SunElt => true | _ => false end) es).

Definition rendered_planets (es : list Element) : list PlanetProps :=
  map planet_elt (fragments es).

Definition rendered_rings (es : list Element) : list (string * number) :=
  flat_map (fun f => match rings_elt f with
                     | Some d => [(key f, d)]
                     | None => []
                     end) (fragments es).

(* ===================================================================== *)
(** ** Runtime: mounting, re-rendering, frames, timers, messages *)
(* ===================================================================== *)

Module Runtime.

(** *** Mounted instances *)

Definition mount_sun : SunInst :=
  {| sunRef := Some (apply_props Sun_render new_Object3D) |}.

(** A re-render passes the same JSX again; the mesh keeps its identity. *)
Definition update_sun (s : SunInst) : SunInst :=
  {| sunRef := option_map (apply_props Sun_render) (sunRef s) |}.

Definition mount_planet (p : PlanetProps) : PlanetInst :=
  {| planet_props := p;
     planetRef := Some new_Object3D;
     meshRef := Some (apply_props (body_mesh (Planet_render p)) new_Object3D);
     orbitLine := apply_props (orbit_mesh (Planet_render p)) new_Object3D |}.

Definition update_planet (p : PlanetProps) (i : PlanetInst) : PlanetInst :=
  {| planet_props := p;
     planetRef := planetRef i;
     meshRef := option_map (apply_props (body_mesh (Planet_render p))) (meshRef i);
     orbitLine := apply_props (orbit_mesh (Planet_render p)) (orbitLine i) |}.

Definition mount_rings (d : number) : RingsInst :=
  {| rings_distance := d;
     ringsRef := Some new_Object3D;
     ringMesh := apply_props (SaturnRings_render d) new_Object3D |}.

Definition update_rings (d : number) (r : RingsInst) : RingsInst :=
  {| rings_distance := d;
     ringsRef := ringsRef r;
     ringMesh := apply_props (SaturnRings_render d) (ringMesh r) |}.

(** The instances under one keyed fragment. *)
Record BodyInst : Type :=
  { body_key : string;
    planetI : PlanetInst;
    ringsI : option RingsInst }.

Definition mount_fragment (f : FragmentElt) : BodyInst :=
  {| body_key := key f;
     planetI := mount_planet (planet_elt f);
     ringsI := option_map mount_rings (rings_elt f) |}.

Definition update_fragment (f : FragmentElt) (b : BodyInst) : BodyInst :=
  {| body_key := key f;
     planetI := update_planet (planet_elt f) (planetI b);
     ringsI :=
       match rings_elt f, ringsI b with
       | Some d, Some r => Some (update_rings d r)
       | Some d, None => Some (mount_rings d)
       | None, _ => None
       end |}.

Definition find_body (k : string) (old : list BodyInst) : option BodyInst :=
  find (fun b => (body_key b =? k)%string) old.

(** Keyed reconciliation: a fragment whose key is already mounted keeps its
    instances (and so its refs); any other fragment is mounted afresh; an
    instance whose key is no longer rendered is dropped. *)
Definition reconcile_bodies (new : list FragmentElt) (old : list BodyInst)
  : list BodyInst :=
  map (fun f => match find_body (key f) old with
                | Some b => update_fragment f b
                | None => mount_fragment f
                end) new.

(** The [<Sun />] children have no key and are matched by position. *)
Fixpoint reconcile_suns (n : nat) (old : list SunInst) : list SunInst :=
  match n with
  | O => []
  | S n' =>
      match old with
      | s :: old' => update_sun s :: reconcile_suns n' old'
      | [] => mount_sun :: reconcile_suns n' []
      end
  end.

(** *** Timers and messages *)

Inductive Target : Type := window | window_parent.

Record Message : Type :=
  { type : string; blockId : string; completed : bool }.

Record Posted : Type :=
  { target : Target; data : Message; targetOrigin : string }.

Definition completion : Message :=
  {| type := "BLOCK_COMPLETION"; blockId := "solar-system-3d"; completed := true |}.

(** The functions handed to [setTimeout]; the block has one. *)
Inductive Callback : Type := send_completion.

Definition run_callback (c : Callback) (outbox : list Posted) : list Posted :=
  match c with
  | send_completion =>
      outbox ++ [ {| target := window; data := completion; targetOrigin := "*" |};
                  {| target := window_parent; data := completion; targetOrigin := "*" |} ]
  end.

Record Timer : Type := { timer_id : nat; due : Z; callback : Callback }.

(** *** The world *)

(** A mounted [Block]: its state cells, the timer id captured by the cleanup
    function of its effect, and the instances below [<Canvas>]. *)
Record Mounted : Type :=
  { state : BlockState;
    cleanup_timer : nat;
    suns : list SunInst;
    bodies : list BodyInst }.

Record World : Type :=
  { table : list PlanetProps;       (* the [planetData] array *)
    timers : list Timer;            (* pending timers *)
    next_timer_id : nat;
    outbox : list Posted;           (* arguments of the [postMessage] calls so far *)
    block : option Mounted }.

Definition render_instances (tbl : list PlanetProps) (st : BlockState)
  (old_suns : list SunInst) (old_bodies : list BodyInst)
  : list SunInst * list BodyInst :=
  let es := canvas (Block_render tbl st) in
  (reconcile_suns (count_suns es) old_suns,
   reconcile_bodies (fragments es) old_bodies).

(** Mounting at time [now] (milliseconds): first render, then the effect
    [setTimeout(..., 2000)], whose cleanup remembers the timer id. *)
Definition mount (now : Z) : World :=
  let (ss, bs) := render_instances planetData initial_state [] [] in
  {| table := planetData;
     timers := [ {| timer_id := 1; due := now + 2000; callback := send_completion |} ];
     next_timer_id := 2;
     outbox := [];
     block := Some {| state := initial_state; cleanup_timer := 1;
                      suns := ss; bodies := bs |} |}.

(** A state change re-renders [Block]; the effect has no dependencies and is
    not run again. *)
Definition set_state (f : BlockState -> BlockState) (w : World) : World :=
  match block w with
  | None => w
  | Some b =>
      let st := f (state b) in
      let (ss, bs) := render_instances (table w) st (suns b) (bodies b) in
      {| table := table w; timers := timers w;
         next_timer_id := next_timer_id w; outbox := outbox w;
         block := Some {| state := st; cleanup_timer := cleanup_timer b;
                          suns := ss; bodies := bs |} |}
  end.

Definition body_useFrame (elapsed : number) (b : BodyInst) : BodyInst :=
  {| body_key := body_key b;
     planetI := Planet_useFrame elapsed (planetI b);
     ringsI := option_map (SaturnRings_useFrame elapsed) (ringsI b) |}.

(** One frame of the render loop: every subscribed [useFrame] callback runs
    with the same clock reading. *)
Definition frame (elapsed : Q) (w : World) : World :=
  match block w with
  | None => w
  | Some b =>
      {| table := table w; timers := timers w;
         next_timer_id := next_timer_id w; outbox := outbox w;
         block := Some {| state := state b; cleanup_timer := cleanup_timer b;
                          suns := map Sun_useFrame (suns b);
                          bodies := map (body_useFrame (Fin elapsed)) (bodies b) |} |}
  end.

Definition clearTimeout (id : nat) (ts : list Timer) : list Timer :=
  filter (fun t => negb (timer_id t =? id)%nat) ts.

(** A turn of the event loop at time [now]: the timers that are due run, in
    queue order, and leave the queue. *)
Definition tick (now : Z) (w : World) : World :=
  let due_now := filter (fun t => (due t <=? now)%Z) (timers w) in
  {| table := table w;
     timers := filter (fun t => negb (due t <=? now)%Z) (timers w);
     next_timer_id := next_timer_id w;
     outbox := fold_left (fun o t => run_callback (callback t) o) due_now (outbox w);
     block := block w |}.

(** Unmounting runs the effect's cleanup, [clearTimeout(timer)]. *)
Definition unmount (w : World) : World :=
  match block w with
  | None => w
  | Some b =>
      {| table := table w;
         timers := clearTimeout (cleanup_timer b) (timers w);
         next_timer_id := next_timer_id w; outbox := outbox w;
         block := None |}
  end.

Inductive Event : Type :=
| Tick (now : Z)                   (* the event loop reaches time [now] *)
| Frame (elapsed : Q)              (* a rendered frame; [elapsed] in seconds *)
| SliderChange (value : string)    (* change event of the range input *)
| CheckboxChange (checked : bool)  (* change event of the checkbox *)
| Unmount.

Definition step (w : World) (e : Event) : World :=
  match e with
  | Tick now => tick now w
  | Frame elapsed => frame elapsed w
  | SliderChange value =>
      match block w with
      | Some b =>
          set_state (ControlPanel.onChange_range (Block_panel_props (state b)) value) w
      | None => w
      end
  | CheckboxChange checked =>
      match block w with
      | Some b =>
          set_state (ControlPanel.onChange_checkbox (Block_panel_props (state b)) checked) w
      | None => w
      end
  | Unmount => unmount w
  end.

Definition run (w : World) (evs : list Event) : World := fold_left step evs w.

(** *** Observations *)

Definition body_of (w : World) (k : string) : option BodyInst :=
  match block w with
  | Some b => find_body k (bodies b)
  | None => None
  end.

(** [planetRef.current.rotation.y] of the planet keyed [k]. *)
Definition orbital_angle (w : World) (k : string) : option number :=
  match body_of w k with
  | Some b => option_map rotation_y (planetRef (planetI b))
  | None => None
  end.

(** [meshRef.current.rotation.y] of the planet keyed [k]. *)
Definition spin_angle (w : World) (k : string) : option number :=
  match body_of w k with
  | Some b => option_map rotation_y (meshRef (planetI b))
  | None => None
  end.

(** The orbit-line mesh of the planet keyed [k]. *)
Definition orbit_line (w : World) (k : string) : option Object3D :=
  option_map (fun b => orbitLine (planetI b)) (body_of w k).

(** [ringsRef.current.rotation.y] of the rings under the fragment keyed [k]. *)
Definition ring_angle (w : World) (k : string) : option number :=
  match body_of w k with
  | Some b =>
      match ringsI b with
      | Some r => option_map rotation_y (ringsRef r)
      | None => None
      end
  | None => None
  end.

(** [sunRef.current.rotation.y] of every mounted [Sun]. *)
Definition sun_spins (w : World) : list (option number) :=
  match block w with
  | Some b => map (fun s => option_map rotation_y (sunRef s)) (suns b)
  | None => []
  end.

Definition multiplier (w : World) : option number :=
  option_map (fun b => animationSpeed (state b)) (block w).

Definition is_mounted (w : World) : bool :=
  match block w with Some _ => true | None => false end.

(** The 3D scene: everything below [<Canvas>]. *)
Definition scene (w : World) : option (list Element * list SunInst * list BodyInst) :=
  match block w with
  | Some b => Some (canvas (Block_render (table w) (state b)), suns b, bodies b)
  | None => None
  end.

Definition panel_view (w : World) : option ControlPanel.View :=
  option_map (fun b => panel (Block_render (table w) (state b))) (block w).

Definition count_frames (evs : list Event) : nat :=
  length (filter (fun e => match e with Frame _ => true | _ => false end) evs).

Definition is_unmount (e : Event) : bool :=
  match e with Unmount => true | _ => false end.

(** Does some turn of the event loop in [evs] reach time [t]? *)
Definition reaches (t : Z) (evs : list Event) : bool :=
  existsb (fun e => match e with Tick now => (t <=? now)%Z | _ => false end) evs.

End Runtime.

Import Runtime.

(* ===================================================================== *)
(** ** Normal forms of mounted instances *)
(* ===================================================================== *)

(** A mounted [Sun] whose mesh has spun to angle [s]. *)
Definition sun_at (s : number) : SunInst :=
  {| sunRef := Some (set_rotation_y (apply_props Sun_render new_Object3D) s) |}.

(** The instances under the fragment of table entry [d] when the multiplier
    is [m]: the pivot group is [pivot], the body mesh has spun to [spin] and
    the pivot of the rings (if the entry has rings) is [ring_pivot]. *)
Definition body_at (m : number) (d : PlanetProps)
  (pivot : Object3D) (spin : number) (ring_pivot : Object3D) : BodyInst :=
  let f := Block_fragment m d in
  {| body_key := key f;
     planetI :=
       {| planet_props := planet_elt f;
          planetRef := Some pivot;
          meshRef :=
            Some (set_rotation_y
                    (apply_props (body_mesh (Planet_render (planet_elt f))) new_Object3D)
                    spin);
          orbitLine := apply_props (orbit_mesh (Planet_render (planet_elt f))) new_Object3D |};
     ringsI :=
       option_map (fun dist => {| rings_distance := dist;
                                  ringsRef := Some ring_pivot;
                                  ringMesh := apply_props (SaturnRings_render dist) new_Object3D |})
                  (rings_elt f) |}.

Definition is_body_of (m : number) (d : PlanetProps) (b : BodyInst) : Prop :=
  exists pivot spin ring_pivot, b = body_at m d pivot spin ring_pivot.

(** The shape of every world in which the block is mounted. *)
Record Inv (w : World) (b : Mounted) : Prop :=
  { inv_table : table w = planetData;
    inv_block : block w = Some b;
    inv_bodies : Forall2 (is_body_of (animationSpeed (state b))) planetData (bodies b);
    inv_suns : exists s, suns b = [sun_at s] }.

(** The events of a history during which the block stays mounted. *)
Definition stays_mounted (evs : list Event) : bool :=
  forallb (fun e => negb (is_unmount e)) evs.

(** The life cycle of the completion signal. *)
Inductive Phase : Type :=
| Pending        (* mounted, timer armed *)
| Sent           (* mounted, signal sent *)
| Cancelled      (* unmounted before the signal *)
| SentUnmounted. (* unmounted after the signal *)

Definition phase_step (deadline : Z) (p : Phase) (e : Event) : Phase :=
  match p, e with
  | Pending, Tick now => if (deadline <=? now)%Z then Sent else Pending
  | Pending, Unmount => Cancelled
  | Sent, Unmount => SentUnmounted
  | _, _ => p
  end.

Definition phase_after (deadline : Z) (evs : list Event) : Phase :=
  fold_left (phase_step deadline) evs Pending.

Definition broadcast : list Posted := run_callback send_completion [].

(** What a phase says about the world mounted at time [now]. *)
Definition in_phase (now : Z) (p : Phase) (w : World) : Prop :=
  match p with
  | Pending =>
      timers w = [ {| timer_id := 1; due := now + 2000; callback := send_completion |} ]
      /\ outbox w = []
      /\ exists b, block w = Some b /\ cleanup_timer b = 1%nat
  | Sent =>
      timers w = [] /\ outbox w = broadcast /\ is_mounted w = true
  | Cancelled =>
      timers w = [] /\ outbox w = [] /\ block w = None
  | SentUnmounted =>
      timers w = [] /\ outbox w = broadcast /\ block w = None
  end.

(** Histories that differ only in checkbox events. *)
Definition is_checkbox (e : Event) : bool :=
  match e with CheckboxChange _ => true | _ => false end.

Definition without_checkbox (evs : list Event) : list Event :=
  filter (fun e => negb (is_checkbox e)) evs.

(** The world with the flag [showOrbits] overwritten. *)
Definition forget_flag (w : World) : World :=
  {| table := table w; timers := timers w; next_timer_id := next_timer_id w;
     outbox := outbox w;
     block := option_map (fun b => {| state := setShowOrbits true (state b);
                                      cleanup_timer := cleanup_timer b;
                                      suns := suns b; bodies := bodies b |})
                         (block w) |}.

(** The control panel with the checkbox state overwritten. *)
Definition forget_checkbox (v : ControlPanel.View) : ControlPanel.View :=
  {| ControlPanel.heading := ControlPanel.heading v;
     ControlPanel.speed_label := ControlPanel.speed_label v;
     ControlPanel.range := ControlPanel.range v;
     ControlPanel.checkbox_checked := true;
     ControlPanel.checkbox_label := ControlPanel.checkbox_label v;
     ControlPanel.hints := ControlPanel.hints v |}.

(** The value string of the range input at its [k]-th step (0, 0.1, ..., 5):
    the shortest decimal for k/10. *)
Definition decimal_digit (n : nat) : string :=
  String (ascii_of_nat (48 + n)) EmptyString.

Definition range_input_value (k : nat) : string :=
  decimal_digit (k / 10) ++
  (if (k mod 10 =? 0)%nat then EmptyString else "." ++ decimal_digit (k mod 10)).

(** The orbit-ring geometry of the planet keyed [k], as rendered from the
    props of its mounted instance. *)
Definition orbit_ring_geometry (w : World) (k : string) : option Geometry :=
  option_map (fun b => geometry (orbit_mesh (Planet_render (planet_props (planetI b)))))
             (body_of w k).

(** The body reconciled for table entry [d] by a re-render. *)
Definition rerendered (m' : number) (old : list BodyInst) (d : PlanetProps) : BodyInst :=
  match find_body (key (Block_fragment m' d)) old with
  | Some b => update_fragment (Block_fragment m' d) b
  | None => mount_fragment (Block_fragment m' d)
  end.

(** A world in which the block, if mounted, has the shape [Inv]. *)
Definition good (w : World) : Prop := (exists b, Inv w b) \/ block w = None.

(** The table entry of Saturn. *)
Definition saturn : PlanetProps :=
  {| name := "Saturn"; size := Fin 0.4; distance := Fin 9;
     color_ := "#FAD5A5"; speed := Fin 0.004 |}.

(** The names of the table, in order. *)
Definition planet_names : list string :=
  ["Mercury"; "Venus"; "Earth"; "Mars"; "Jupiter"; "Saturn"; "Uranus"; "Neptune"].

(* ===================================================================== *)
(** ** Further observations *)
(* ===================================================================== *)

(** Has the completion signal been sent by the end of [evs]?  It has when a
    turn of the event loop reaches [deadline] before the first unmount. *)
Fixpoint signal_sent (deadline : Z) (evs : list Event) : bool :=
  match evs with
  | [] => false
  | Tick now :: rest => (deadline <=? now)%Z || signal_sent deadline rest
  | Unmount :: _ => false
  | _ :: rest => signal_sent deadline rest
  end.

(** Is the timer gone by the end of [evs]?  It is once a turn has reached
    [deadline] or the block was unmounted. *)
Definition timer_gone (deadline : Z) (evs : list Event) : bool :=
  existsb (fun e => match e with
                    | Tick now => (deadline <=? now)%Z
                    | Unmount => true
                    | _ => false
                    end) evs.

Definition is_sent (p : Phase) : bool :=
  match p with Sent | SentUnmounted => true | _ => false end.

(** The transforms under one fragment, without the props: the pivot group,
    the body mesh, the orbit line and, if there are rings, their pivot and
    mesh. *)
Definition body_pose (i : BodyInst)
  : string * option Object3D * option Object3D * Object3D
    * option (option Object3D * Object3D) :=
  (body_key i, planetRef (planetI i), meshRef (planetI i), orbitLine (planetI i),
   option_map (fun r => (ringsRef r, ringMesh r)) (ringsI i)).

(** All transforms of the mounted scene. *)
Definition world_pose (w : World) :=
  option_map (fun b => (suns b, map body_pose (bodies b))) (block w).

(* ===================================================================== *)
(** ** The frame arithmetic in binary64 *)
(* ===================================================================== *)

(** The numbers of the running program are IEEE binary64 values, and every
    [*] and [+=] of the frame callbacks rounds.  [F64] is the part of the
    program that computes with them, over Rocq's primitive floats (which are
    binary64 with round-to-nearest-even): the table with its speeds as
    doubles, the [speed] prop that [Block] computes, the three [useFrame]
    callbacks, and re-rendering with keyed reconciliation as in [Runtime].
    Of each object only [rotation.y] is kept, the one field a frame callback
    reads or writes; positions, geometries and materials are constant and are
    covered by [Runtime].  The block stays mounted throughout.

    An event carries the doubles the callbacks receive: a frame the value of
    [clock.getElapsedTime()], a slider change the value that
    [parseFloat(e.target.value)] returned. *)

Module F64.

Import Floats.
#[local] Set Warnings "-inexact-float".
#[local] Open Scope float_scope.

Record PlanetProps : Type :=
  { name : string;
    size : float;
    distance : float;
    color_ : string;
    speed : float }.

Definition planetData : list PlanetProps :=
  [ {| name := "Mercury"; size := 0.1;  distance := 2;  color_ := "#8C7853"; speed := 0.02 |};
    {| name := "Venus";   size := 0.15; distance := 3;  color_ := "#FFC649"; speed := 0.015 |};
    {| name := "Earth";   size := 0.16; distance := 4;  color_ := "#6B93D6"; speed := 0.01 |};
    {| name := "Mars";    size := 0.12; distance := 5;  color_ := "#CD5C5C"; speed := 0.008 |};
    {| name := "Jupiter"; size := 0.5;  distance := 7;  color_ := "#D8CA9D"; speed := 0.005 |};
    {| name := "Saturn";  size := 0.4;  distance := 9;  color_ := "#FAD5A5"; speed := 0.004 |};
    {| name := "Uranus";  size := 0.25; distance := 11; color_ := "#4FD0E7"; speed := 0.003 |};
    {| name := "Neptune"; size := 0.24; distance := 13; color_ := "#4B70DD"; speed := 0.002 |} ].

(** The third entry of the table, used in examples. *)
Definition earth : PlanetProps :=
  {| name := "Earth"; size := 0.16; distance := 4; color_ := "#6B93D6"; speed := 0.01 |}.

(** [sunRef]: [rotation.y] of the mesh it holds, [None] while it is null. *)
Record SunInst : Type := { sunRef : option float }.

(** [useFrame(() => { if (sunRef.current) sunRef.current.rotation.y += 0.01 })] *)
Definition Sun_useFrame (s : SunInst) : SunInst :=
  {| sunRef :=
       match sunRef s with
       | Some y => Some (y + 0.01)
       | None => None
       end |}.

(** A mounted [Planet]: the props of its latest render and [rotation.y] of
    the group held by [planetRef] and of the mesh held by [meshRef]. *)
Record PlanetInst : Type :=
  { planet_props : PlanetProps;
    planetRef : option float;
    meshRef : option float }.

(** [[
  useFrame(({ clock }) => {
    if (planetRef.current) planetRef.current.rotation.y = clock.getElapsedTime() * speed;
    if (meshRef.current)   meshRef.current.rotation.y += 0.02;
  })
]] *)
Definition Planet_useFrame (elapsed : float) (i : PlanetInst) : PlanetInst :=
  {| planet_props := planet_props i;
     planetRef :=
       match planetRef i with
       | Some _ => Some (elapsed * speed (planet_props i))
       | None => None
       end;
     meshRef :=
       match meshRef i with
       | Some y => Some (y + 0.02)
       | None => None
       end |}.

(** A mounted [SaturnRings]: its prop and [rotation.y] of the group held by
    [ringsRef]. *)
Record RingsInst : Type :=
  { rings_distance : float;
    ringsRef : option float }.

(** [[
  useFrame(({ clock }) => {
    if (ringsRef.current) ringsRef.current.rotation.y = clock.getElapsedTime() * 0.004;
  })
]] *)
Definition SaturnRings_useFrame (elapsed : float) (r : RingsInst) : RingsInst :=
  {| rings_distance := rings_distance r;
     ringsRef :=
       match ringsRef r with
       | Some _ => Some (elapsed * 0.004)
       | None => None
       end |}.

(** The two [useState] cells of [Block]. *)
Record BlockState : Type := { animationSpeed : float; showOrbits : bool }.

Definition initial_state : BlockState :=
  {| animationSpeed := 1; showOrbits := true |}.

Definition setAnimationSpeed (v : float) (st : BlockState) : BlockState :=
  {| animationSpeed := v; showOrbits := showOrbits st |}.

Definition setShowOrbits (b : bool) (st : BlockState) : BlockState :=
  {| animationSpeed := animationSpeed st; showOrbits := b |}.

(** One [<React.Fragment key={planet.name}>] of the [planetData.map]. *)
Record FragmentElt : Type :=
  { key : string;
    planet_elt : PlanetProps;
    rings_elt : option float }.

Definition Block_fragment (animationSpeed : float) (planet : PlanetProps)
  : FragmentElt :=
  {| key := name planet;
     planet_elt :=
       {| name := name planet;
          size := size planet;
          distance := distance planet;
          color_ := color_ planet;
          speed := speed planet * animationSpeed |};
     rings_elt :=
       if (name planet =? "Saturn")%string then Some (distance planet) else None |}.

Definition Block_fragments (table : list PlanetProps) (st : BlockState)
  : list FragmentElt :=
  map (Block_fragment (animationSpeed st)) table.

(** The instances under one keyed fragment. *)
Record BodyInst : Type :=
  { body_key : string;
    planetI : PlanetInst;
    ringsI : option RingsInst }.

(** A fresh object has [rotation.y] 0. *)
Definition mount_fragment (f : FragmentElt) : BodyInst :=
  {| body_key := key f;
     planetI := {| planet_props := planet_elt f;
                   planetRef := Some 0;
                   meshRef := Some 0 |};
     ringsI := option_map (fun d => {| rings_distance := d; ringsRef := Some 0 |})
                          (rings_elt f) |}.

(** A re-render gives the instances the new props and keeps their refs. *)
Definition update_fragment (f : FragmentElt) (b : BodyInst) : BodyInst :=
  {| body_key := key f;
     planetI := {| planet_props := planet_elt f;
                   planetRef := planetRef (planetI b);
                   meshRef := meshRef (planetI b) |};
     ringsI :=
       match rings_elt f, ringsI b with
       | Some d, Some r => Some {| rings_distance := d; ringsRef := ringsRef r |}
       | Some d, None => Some {| rings_distance := d; ringsRef := Some 0 |}
       | None, _ => None
       end |}.

Definition find_body (k : string) (old : list BodyInst) : option BodyInst :=
  find (fun b => (body_key b =? k)%string) old.

Definition reconcile_bodies (new : list FragmentElt) (old : list BodyInst)
  : list BodyInst :=
  map (fun f => match find_body (key f) old with
                | Some b => update_fragment f b
                | None => mount_fragment f
                end) new.

Record World : Type :=
  { state : BlockState;
    sun : SunInst;
    bodies : list BodyInst }.

Definition mount : World :=
  {| state := initial_state;
     sun := {| sunRef := Some 0 |};
     bodies := reconcile_bodies (Block_fragments planetData initial_state) [] |}.

(** A state change re-renders [Block]. *)
Definition set_state (f : BlockState -> BlockState) (w : World) : World :=
  let st := f (state w) in
  {| state := st;
     sun := sun w;
     bodies := reconcile_bodies (Block_fragments planetData st) (bodies w) |}.

Definition body_useFrame (elapsed : float) (b : BodyInst) : BodyInst :=
  {| body_key := body_key b;
     planetI := Planet_useFrame elapsed (planetI b);
     ringsI := option_map (SaturnRings_useFrame elapsed) (ringsI b) |}.

(** One frame: every [useFrame] callback runs with the same clock reading. *)
Definition frame (elapsed : float) (w : World) : World :=
  {| state := state w;
     sun := Sun_useFrame (sun w);
     bodies := map (body_useFrame elapsed) (bodies w) |}.

Inductive Event : Type :=
| Frame (elapsed : float)          (* a frame; [clock.getElapsedTime()] *)
| SliderChange (parsed : float)    (* change of the slider; [parseFloat(e.target.value)] *)
| CheckboxChange (checked : bool). (* change of the checkbox; [e.target.checked] *)

Definition step (w : World) (e : Event) : World :=
  match e with
  | Frame elapsed => frame elapsed w
  | SliderChange parsed => set_state (setAnimationSpeed parsed) w
  | CheckboxChange checked => set_state (setShowOrbits checked) w
  end.

Definition run (w : World) (evs : list Event) : World := fold_left step evs w.

(** *** Observations *)

(** [planetRef.current.rotation.y] of the planet keyed [k]. *)
Definition orbital_angle (w : World) (k : string) : option float :=
  match find_body k (bodies w) with
  | Some b => planetRef (planetI b)
  | None => None
  end.

(** [meshRef.current.rotation.y] of the planet keyed [k]. *)
Definition spin_angle (w : World) (k : string) : option float :=
  match find_body k (bodies w) with
  | Some b => meshRef (planetI b)
  | None => None
  end.

(** [ringsRef.current.rotation.y] of the rings under the fragment keyed [k]. *)
Definition ring_angle (w : World) (k : string) : option float :=
  match find_body k (bodies w) with
  | Some b => match ringsI b with
              | Some r => ringsRef r
              | None => None
              end
  | None => None
  end.

Definition sun_spin (w : World) : option float := sunRef (sun w).

Definition multiplier (w : World) : float := animationSpeed (state w).

Definition count_frames (evs : list Event) : nat :=
  length (filter (fun e => match e with Frame _ => true | _ => false end) evs).

(** The value of a finite double as a rational. *)
Definition exact (x : float) : option Q :=
  match Prim2SF x with
  | S754_zero _ => Some 0%Q
  | S754_finite negative m e =>
      let v := (inject_Z (Zpos m) * Qpower 2 e)%Q in
      Some (if negative then (- v)%Q else v)
  | _ => None
  end.


(** *** The instances as a function of what happened *)

(** What the transforms depend on: the multiplier and the flag now, the
    clock reading of the last frame with the multiplier it ran under, and the
    number of frames so far. *)
Record Summary : Type :=
  { now_speed : float;
    now_flag : bool;
    last_frame : option (float * float);
    frames : nat }.

Definition initial_summary : Summary :=
  {| now_speed := 1; now_flag := true; last_frame := None; frames := 0 |}.

Definition absorb (s : Summary) (e : Event) : Summary :=
  match e with
  | Frame elapsed =>
      {| now_speed := now_speed s; now_flag := now_flag s;
         last_frame := Some (elapsed, now_speed s); frames := S (frames s) |}
  | SliderChange parsed =>
      {| now_speed := parsed; now_flag := now_flag s;
         last_frame := last_frame s; frames := frames s |}
  | CheckboxChange checked =>
      {| now_speed := now_speed s; now_flag := checked;
         last_frame := last_frame s; frames := frames s |}
  end.

Definition summary_of (evs : list Event) : Summary :=
  fold_left absorb evs initial_summary.

(** The spin after [n] frames that each add [c], from 0: [n] rounded
    additions. *)
Definition spin_after (n : nat) (c : float) : float :=
  Nat.iter n (fun y => y + c) 0.

(** The angle the last frame gave the pivot of planet [d], and the pivot of
    the rings. *)
Definition pivot_after (s : Summary) (d : PlanetProps) : float :=
  match last_frame s with
  | Some (elapsed, m) => elapsed * (speed d * m)
  | None => 0
  end.

Definition ring_pivot_after (s : Summary) : float :=
  match last_frame s with
  | Some (elapsed, _) => elapsed * 0.004
  | None => 0
  end.

Definition body_of_summary (s : Summary) (d : PlanetProps) : BodyInst :=
  {| body_key := name d;
     planetI :=
       {| planet_props := planet_elt (Block_fragment (now_speed s) d);
          planetRef := Some (pivot_after s d);
          meshRef := Some (spin_after (frames s) 0.02) |};
     ringsI :=
       if (name d =? "Saturn")%string
       then Some {| rings_distance := distance d;
                    ringsRef := Some (ring_pivot_after s) |}
       else None |}.

Definition world_of_summary (s : Summary) : World :=
  {| state := {| animationSpeed := now_speed s; showOrbits := now_flag s |};
     sun := {| sunRef := Some (spin_after (frames s) 0.01) |};
     bodies := map (body_of_summary s) planetData |}.

End F64.

(* ===================================================================== *)
(** ** Numbers: basic facts *)
(* ===================================================================== *)

Lemma num_eq_refl (a : number) : a =n= a.
Proof. destruct a; simpl; [exact I | reflexivity]. Qed.

Lemma num_eq_sym (a b : number) : a =n= b -> b =n= a.
Proof. destruct a, b; simpl; auto. intro H; symmetry; exact H. Qed.

Lemma num_eq_trans (a b c : number) : a =n= b -> b =n= c -> a =n= c.
Proof.
  destruct a, b, c; simpl; auto; try contradiction.
  intros H1 H2. rewrite H1. exact H2.
Qed.

#[export] Instance num_eq_Equivalence : Equivalence num_eq.
Proof.
  constructor.
  - exact num_eq_refl.
  - exact num_eq_sym.
  - exact num_eq_trans.
Qed.

Lemma num_eqb_spec (a b : number) : num_eqb a b = true <-> a =n= b.
Proof.
  destruct a, b; simpl; try (split; [discriminate | contradiction]).
  - split; auto.
  - apply Qeq_bool_iff.
Qed.

Lemma planetData_names_NoDup : NoDup (map name planetData).
Proof.
  unfold planetData. simpl.
  repeat (constructor; [simpl; intros H;
    repeat (destruct H as [H | H]; [discriminate H |]); exact H |]).
  constructor.
Qed.
Open Scope list_scope.

Arguments planetData : simpl never.

(* ===================================================================== *)
(** ** One render pass *)
(* ===================================================================== *)

Lemma fragments_app (xs ys : list Element) :
  fragments (xs ++ ys) = fragments xs ++ fragments ys.
Proof. unfold fragments. apply flat_map_app. Qed.

Lemma fragments_map_FragmentE (fs : list FragmentElt) :
  fragments (map FragmentE fs) = fs.
Proof.
  induction fs as [| f fs IH]; [reflexivity |].
  change (fragments (map FragmentE (f :: fs))) with (f :: fragments (map FragmentE fs)).
  rewrite IH. reflexivity.
Qed.

Lemma fragments_Block_canvas (tbl : list PlanetProps) (st : BlockState) :
  fragments (Block_canvas tbl st) = map (Block_fragment (animationSpeed st)) tbl.
Proof.
  unfold Block_canvas.
  rewrite <- (map_map (Block_fragment (animationSpeed st)) FragmentE).
  rewrite !fragments_app, fragments_map_FragmentE. simpl.
  apply app_nil_r.
Qed.

Lemma count_suns_Block_canvas (tbl : list PlanetProps) (st : BlockState) :
  count_suns (Block_canvas tbl st) = 1%nat.
Proof.
  unfold Block_canvas, count_suns. simpl.
  rewrite filter_app, length_app.
  replace (filter _ (map _ tbl)) with (@nil Element).
  - reflexivity.
  - induction tbl as [| d tbl IH]; simpl; auto.
Qed.

(* ===================================================================== *)
(** ** Looking a body up by its key *)
(* ===================================================================== *)

Lemma find_body_map (g : BodyInst -> BodyInst) (k : string) (bs : list BodyInst) :
  (forall b, body_key (g b) = body_key b) ->
  find_body k (map g bs) = option_map g (find_body k bs).
Proof.
  intros Hg. unfold find_body.
  induction bs as [| b bs IH]; simpl; [reflexivity |].
  rewrite Hg. destruct (body_key b =? k)%string; [reflexivity | exact IH].
Qed.

(** In a list of bodies aligned with a table whose names are distinct, the
    body found under an entry's name is the one aligned with that entry. *)
Lemma find_body_aligned (P : PlanetProps -> BodyInst -> Prop)
  (tbl : list PlanetProps) (bs : list BodyInst) (d : PlanetProps) :
  (forall d b, P d b -> body_key b = name d) ->
  Forall2 P tbl bs ->
  NoDup (map name tbl) ->
  In d tbl ->
  exists b, find_body (name d) bs = Some b /\ P d b.
Proof.
  intros Hkey HF. induction HF as [| d0 b0 tbl bs HP HF IH]; intros Hnd Hin.
  - contradiction.
  - simpl in Hnd. inversion Hnd as [| ? ? Hnotin Hnd']; subst.
    unfold find_body; simpl. rewrite (Hkey _ _ HP).
    destruct Hin as [-> | Hin].
    + rewrite String.eqb_refl. eauto.
    + destruct (String.eqb_spec (name d0) (name d)) as [E | NE].
      * exfalso. apply Hnotin. rewrite E. apply in_map. exact Hin.
      * apply IH; assumption.
Qed.

Lemma Forall2_map_r_self (A B : Type) (P : A -> B -> Prop) (g : A -> B) (l : list A) :
  (forall a, In a l -> P a (g a)) -> Forall2 P l (map g l).
Proof.
  induction l as [| a l IH]; simpl; intros H; constructor.
  - apply H. left. reflexivity.
  - apply IH. intros x Hx. apply H. right. exact Hx.
Qed.

Lemma Forall2_map_r (A B : Type) (P Q : A -> B -> Prop) (g : B -> B)
  (l : list A) (l' : list B) :
  (forall a b, P a b -> Q a (g b)) -> Forall2 P l l' -> Forall2 Q l (map g l').
Proof.
  intros H HF. induction HF; simpl; constructor; auto.
Qed.

(* ===================================================================== *)
(** ** Normal forms are preserved *)
(* ===================================================================== *)

Lemma body_at_key m d p s rp : body_key (body_at m d p s rp) = name d.
Proof. reflexivity. Qed.

Lemma is_body_of_key m d b : is_body_of m d b -> body_key b = name d.
Proof. intros (p & s & rp & ->). reflexivity. Qed.

Lemma mount_fragment_body_at (m : number) (d : PlanetProps) :
  mount_fragment (Block_fragment m d) = body_at m d new_Object3D zero new_Object3D.
Proof. reflexivity. Qed.

(** Re-rendering with multiplier [m'] changes the [speed] prop and nothing
    else: refs, spin and pivots are kept. *)
Lemma update_fragment_body_at (m m' : number) (d : PlanetProps) p s rp :
  update_fragment (Block_fragment m' d) (body_at m d p s rp) = body_at m' d p s rp.
Proof.
  unfold update_fragment, body_at, update_planet. simpl.
  destruct (name d =? "Saturn")%string; reflexivity.
Qed.

Lemma body_useFrame_body_at (e m : number) (d : PlanetProps) p s rp :
  body_useFrame e (body_at m d p s rp)
  = body_at m d (set_rotation_y p (e * (speed d * m)))
                (s + Fin 0.02)
                (set_rotation_y rp (e * Fin 0.004)).
Proof.
  unfold body_useFrame, body_at, Planet_useFrame. simpl.
  destruct (name d =? "Saturn")%string; reflexivity.
Qed.

Lemma Sun_useFrame_sun_at (s : number) :
  Sun_useFrame (sun_at s) = sun_at (s + Fin 0.01).
Proof. reflexivity. Qed.

Lemma update_sun_sun_at (s : number) : update_sun (sun_at s) = sun_at s.
Proof. reflexivity. Qed.

Lemma mount_sun_sun_at : mount_sun = sun_at zero.
Proof. reflexivity. Qed.

Lemma find_body_table (g : PlanetProps -> BodyInst) (tbl : list PlanetProps)
  (d : PlanetProps) :
  (forall d, body_key (g d) = name d) ->
  NoDup (map name tbl) ->
  In d tbl ->
  find_body (name d) (map g tbl) = Some (g d).
Proof.
  intros Hkey Hnd Hin.
  destruct (@find_body_aligned (fun d b => b = g d) tbl (map g tbl) d)
    as (b & Hfind & ->); auto.
  - intros d0 b0 ->. apply Hkey.
  - apply Forall2_map_r_self. reflexivity.
Qed.

(* ===================================================================== *)
(** ** The steps of a mounted world *)
(* ===================================================================== *)

Lemma step_SliderChange (w : World) (b : Mounted) (value : string) :
  block w = Some b ->
  step w (SliderChange value) = set_state (setAnimationSpeed (parseFloat value)) w.
Proof. intros H. simpl. rewrite H. reflexivity. Qed.

Lemma step_CheckboxChange (w : World) (b : Mounted) (checked : bool) :
  block w = Some b ->
  step w (CheckboxChange checked) = set_state (setShowOrbits checked) w.
Proof. intros H. simpl. rewrite H. reflexivity. Qed.

Lemma run_app (w : World) (xs ys : list Event) :
  run w (xs ++ ys) = run (run w xs) ys.
Proof. apply fold_left_app. Qed.

Lemma run_snoc (w : World) (xs : list Event) (e : Event) :
  run w (xs ++ [e]) = step (run w xs) e.
Proof. rewrite run_app. reflexivity. Qed.

Lemma Inv_mount (now : Z) : exists b, Inv (mount now) b /\ state b = initial_state.
Proof.
  eexists. split; [constructor |]; try reflexivity.
  - simpl. unfold planetData.
    repeat (constructor;
            [exists new_Object3D, zero, new_Object3D; reflexivity |]).
    constructor.
  - simpl. exists zero. reflexivity.
Qed.

Lemma rerendered_key m' old d : body_key (rerendered m' old d) = name d.
Proof. unfold rerendered. destruct (find_body _ old); reflexivity. Qed.

Lemma reconcile_bodies_table (tbl : list PlanetProps) (st : BlockState)
  (old : list BodyInst) :
  reconcile_bodies (fragments (canvas (Block_render tbl st))) old
  = map (rerendered (animationSpeed st) old) tbl.
Proof.
  change (canvas (Block_render tbl st)) with (Block_canvas tbl st).
  rewrite fragments_Block_canvas. unfold reconcile_bodies.
  rewrite map_map. reflexivity.
Qed.

Lemma rerendered_body_at (m m' : number) (old : list BodyInst) (d : PlanetProps) :
  Forall2 (is_body_of m) planetData old ->
  In d planetData ->
  exists p s rp,
    find_body (name d) old = Some (body_at m d p s rp)
    /\ rerendered m' old d = body_at m' d p s rp.
Proof.
  intros HF Hin.
  destruct (@find_body_aligned (is_body_of m) planetData old d
              (@is_body_of_key m) HF planetData_names_NoDup Hin)
    as (b & Hfind & (p & s & rp & ->)).
  exists p, s, rp. split; [exact Hfind |].
  unfold rerendered. change (key (Block_fragment m' d)) with (name d).
  rewrite Hfind. apply update_fragment_body_at.
Qed.

Lemma set_state_block (f : BlockState -> BlockState) (w : World) (b : Mounted) :
  Inv w b ->
  block (set_state f w)
  = Some {| state := f (state b); cleanup_timer := cleanup_timer b;
            suns := suns b;
            bodies := map (rerendered (animationSpeed (f (state b))) (bodies b)) planetData |}.
Proof.
  intros [Ht Hb HF (s & Hs)].
  unfold set_state, render_instances. rewrite Hb. cbv zeta.
  rewrite reconcile_bodies_table, Ht.
  change (canvas (Block_render planetData (f (state b))))
    with (Block_canvas planetData (f (state b))).
  rewrite count_suns_Block_canvas, Hs. reflexivity.
Qed.

Lemma set_state_Inv (f : BlockState -> BlockState) (w : World) (b : Mounted) :
  Inv w b ->
  exists b', Inv (set_state f w) b' /\ state b' = f (state b)
             /\ suns b' = suns b /\ cleanup_timer b' = cleanup_timer b.
Proof.
  intros HI. pose proof (set_state_block f HI) as Hblock.
  destruct HI as [Ht Hb HF Hs].
  eexists. split; [constructor; [| exact Hblock | |] | repeat split; reflexivity].
  - unfold set_state. rewrite Hb. destruct (render_instances _ _ _ _). exact Ht.
  - cbn [bodies state]. apply Forall2_map_r_self. intros d Hin.
    destruct (rerendered_body_at (animationSpeed (f (state b))) HF Hin)
      as (p & s & rp & _ & ->).
    exists p, s, rp. reflexivity.
  - exact Hs.
Qed.

Lemma frame_Inv (t : Q) (w : World) (b : Mounted) :
  Inv w b ->
  exists b', Inv (frame t w) b' /\ state b' = state b
             /\ cleanup_timer b' = cleanup_timer b.
Proof.
  intros [Ht Hb HF (s & Hs)].
  unfold frame. rewrite Hb.
  exists {| state := state b; cleanup_timer := cleanup_timer b;
            suns := map Sun_useFrame (suns b);
            bodies := map (body_useFrame (Fin t)) (bodies b) |}.
  split; [constructor | split; reflexivity].
  - exact Ht.
  - reflexivity.
  - cbn [bodies state]. eapply Forall2_map_r; [| exact HF].
    intros d i (p & s' & rp & ->). rewrite body_useFrame_body_at.
    do 3 eexists. reflexivity.
  - cbn [suns]. rewrite Hs. exists (s + Fin 0.01)%num. reflexivity.
Qed.

Lemma tick_Inv (now : Z) (w : World) (b : Mounted) : Inv w b -> Inv (tick now w) b.
Proof. intros [Ht Hb HF Hs]. constructor; assumption. Qed.

Lemma step_Inv (w : World) (b : Mounted) (e : Event) :
  Inv w b -> is_unmount e = false -> exists b', Inv (step w e) b'.
Proof.
  intros HI He. destruct e; try discriminate.
  - exists b. apply tick_Inv. exact HI.
  - destruct (frame_Inv elapsed HI) as (b' & H & _). eauto.
  - rewrite (@step_SliderChange w b value (inv_block HI)).
    destruct (set_state_Inv (setAnimationSpeed (parseFloat value)) HI) as (b' & H & _).
    eauto.
  - rewrite (@step_CheckboxChange w b checked (inv_block HI)).
    destruct (set_state_Inv (setShowOrbits checked) HI) as (b' & H & _).
    eauto.
Qed.

Lemma run_Inv (evs : list Event) (w : World) (b : Mounted) :
  Inv w b -> stays_mounted evs = true -> exists b', Inv (run w evs) b'.
Proof.
  revert w b. induction evs as [| e evs IH]; intros w b HI Hm.
  - exists b. exact HI.
  - simpl in Hm. apply andb_true_iff in Hm. destruct Hm as [He Hm].
    apply negb_true_iff in He.
    destruct (step_Inv e HI He) as (b1 & H1).
    simpl. eapply IH; eauto.
Qed.

Lemma reachable_Inv (now : Z) (evs : list Event) :
  stays_mounted evs = true -> exists b, Inv (run (mount now) evs) b.
Proof.
  intros Hm. destruct (Inv_mount now) as (b0 & H0 & _).
  eapply run_Inv; eauto.
Qed.

(* ===================================================================== *)
(** ** How a step changes one body *)
(* ===================================================================== *)

Lemma body_of_Inv (w : World) (b : Mounted) (d : PlanetProps) :
  Inv w b -> In d planetData ->
  exists p s rp,
    body_of w (name d) = Some (body_at (animationSpeed (state b)) d p s rp).
Proof.
  intros [Ht Hb HF Hs] Hin. unfold body_of. rewrite Hb.
  destruct (@find_body_aligned (is_body_of (animationSpeed (state b)))
              planetData (bodies b) d
              (@is_body_of_key (animationSpeed (state b)))
              HF planetData_names_NoDup Hin)
    as (i & Hfind & (p & s & rp & ->)).
  eauto.
Qed.

Lemma body_of_tick (now : Z) (w : World) (k : string) :
  body_of (tick now w) k = body_of w k.
Proof. reflexivity. Qed.

Lemma body_of_frame (t : Q) (w : World) (k : string) :
  body_of (frame t w) k = option_map (body_useFrame (Fin t)) (body_of w k).
Proof.
  unfold body_of, frame. destruct (block w) as [b |] eqn:Hb.
  - cbn [block bodies]. apply find_body_map. reflexivity.
  - rewrite Hb. reflexivity.
Qed.

Lemma body_of_set_state (f : BlockState -> BlockState) (w : World) (b : Mounted)
  (d : PlanetProps) p s rp :
  Inv w b -> In d planetData ->
  body_of w (name d) = Some (body_at (animationSpeed (state b)) d p s rp) ->
  body_of (set_state f w) (name d)
  = Some (body_at (animationSpeed (f (state b))) d p s rp).
Proof.
  intros HI Hin Hbody. unfold body_of. rewrite (set_state_block f HI).
  cbn [bodies].
  rewrite (@find_body_table _ _ d (rerendered_key _ _) planetData_names_NoDup Hin).
  destruct (rerendered_body_at (animationSpeed (f (state b))) (inv_bodies HI) Hin)
    as (p' & s' & rp' & Hfind & ->).
  unfold body_of in Hbody. rewrite (inv_block HI), Hfind in Hbody.
  rewrite <- (update_fragment_body_at (animationSpeed (state b))
                (animationSpeed (f (state b))) d p s rp).
  rewrite <- (update_fragment_body_at (animationSpeed (state b))
                (animationSpeed (f (state b))) d p' s' rp').
  congruence.
Qed.

Lemma body_of_frame_at (t : Q) (w : World) (k : string) m d p s rp :
  body_of w k = Some (body_at m d p s rp) ->
  body_of (frame t w) k
  = Some (body_at m d (set_rotation_y p (Fin t * (speed d * m)))
                      (s + Fin 0.02)
                      (set_rotation_y rp (Fin t * Fin 0.004))).
Proof.
  intros Hbody. rewrite body_of_frame, Hbody. simpl option_map.
  rewrite body_useFrame_body_at. reflexivity.
Qed.

(** After a frame with clock reading [t] the pivot of body [d] is at
    [t * (speed d * m)], its spin has advanced by 0.02 and the pivot of its
    rings is at [t * 0.004]. *)
Lemma body_of_after_frame (t : Q) (w : World) (b : Mounted) (d : PlanetProps) :
  Inv w b -> In d planetData ->
  exists p s rp,
    body_of w (name d) = Some (body_at (animationSpeed (state b)) d p s rp)
    /\ body_of (frame t w) (name d)
       = Some (body_at (animationSpeed (state b)) d
                 (set_rotation_y p (Fin t * (speed d * animationSpeed (state b))))
                 (s + Fin 0.02)
                 (set_rotation_y rp (Fin t * Fin 0.004))).
Proof.
  intros HI Hin. destruct (body_of_Inv HI Hin) as (p & s & rp & Hbody).
  exists p, s, rp. split; [exact Hbody |].
  apply body_of_frame_at. exact Hbody.
Qed.

(** *** Spin over a whole history *)

Lemma count_frames_cons (e : Event) (evs : list Event) :
  count_frames (e :: evs)
  = ((match e with Frame _ => 1 | _ => 0 end) + count_frames evs)%nat.
Proof. unfold count_frames. simpl. destruct e; reflexivity. Qed.

(* ===================================================================== *)
(** ** The completion signal *)
(* ===================================================================== *)

(** Frames and control-panel events touch neither the timer queue nor the
    outbox nor the timer id kept by the cleanup. *)
Lemma set_state_timers (f : BlockState -> BlockState) (w : World) :
  timers (set_state f w) = timers w
  /\ outbox (set_state f w) = outbox w
  /\ (forall b, block w = Some b ->
      exists b', block (set_state f w) = Some b'
                 /\ cleanup_timer b' = cleanup_timer b)
  /\ (block w = None -> set_state f w = w).
Proof.
  unfold set_state. destruct (block w) as [b |] eqn:Hb.
  - destruct (render_instances _ _ _ _) as [ss bs]. cbn.
    split; [reflexivity | split; [reflexivity | split]].
    + intros b0 [= <-]. eauto.
    + discriminate.
  - split; [reflexivity | split; [reflexivity | split]].
    + intros b0 H. discriminate H.
    + intros _. reflexivity.
Qed.

Lemma frame_timers (t : Q) (w : World) :
  timers (frame t w) = timers w
  /\ outbox (frame t w) = outbox w
  /\ (forall b, block w = Some b ->
      exists b', block (frame t w) = Some b'
                 /\ cleanup_timer b' = cleanup_timer b)
  /\ (block w = None -> frame t w = w).
Proof.
  unfold frame. destruct (block w) as [b |] eqn:Hb.
  - cbn. split; [reflexivity | split; [reflexivity | split]].
    + intros b0 [= <-]. eauto.
    + discriminate.
  - split; [reflexivity | split; [reflexivity | split]].
    + intros b0 H. discriminate H.
    + intros _. reflexivity.
Qed.

Lemma quiet_step_timers (e : Event) (w : World) :
  match e with Tick _ | Unmount => False | _ => True end ->
  timers (step w e) = timers w
  /\ outbox (step w e) = outbox w
  /\ (forall b, block w = Some b ->
      exists b', block (step w e) = Some b'
                 /\ cleanup_timer b' = cleanup_timer b)
  /\ (block w = None -> step w e = w).
Proof.
  destruct e; try contradiction; intros _; simpl step.
  - apply frame_timers.
  - destruct (block w) as [b |] eqn:Hb.
    + pose proof (set_state_timers
                    (ControlPanel.onChange_range (Block_panel_props (state b)) value) w)
        as H. rewrite Hb in H. exact H.
    + split; [reflexivity | split; [reflexivity | split]];
        [discriminate | intros _; reflexivity].
  - destruct (block w) as [b |] eqn:Hb.
    + pose proof (set_state_timers
                    (ControlPanel.onChange_checkbox (Block_panel_props (state b)) checked) w)
        as H. rewrite Hb in H. exact H.
    + split; [reflexivity | split; [reflexivity | split]];
        [discriminate | intros _; reflexivity].
Qed.

Lemma tick_no_timers (now : Z) (w : World) : timers w = [] -> tick now w = w.
Proof. intros H. unfold tick. rewrite H. simpl. rewrite <- H. destruct w; reflexivity. Qed.

Lemma step_unmounted (e : Event) (w : World) :
  timers w = [] -> block w = None -> step w e = w.
Proof.
  intros Ht Hb. destruct e; simpl step.
  - apply tick_no_timers. exact Ht.
  - unfold frame. rewrite Hb. reflexivity.
  - rewrite Hb. reflexivity.
  - rewrite Hb. reflexivity.
  - unfold unmount. rewrite Hb. reflexivity.
Qed.

Lemma phase_step_sim (now : Z) (p : Phase) (w : World) (e : Event) :
  in_phase now p w -> in_phase now (phase_step (now + 2000) p e) (step w e).
Proof.
  intros H. destruct p.
  - (* Pending *)
    destruct H as (Ht & Ho & b & Hb & Hc). destruct e.
    + simpl. unfold tick. rewrite Ht, Ho. simpl.
      destruct (now + 2000 <=? now0)%Z; simpl.
      * repeat split. unfold is_mounted. simpl. rewrite Hb. reflexivity.
      * repeat split. exists b. split; assumption.
    + destruct (quiet_step_timers (Frame elapsed) w I) as (H1 & H2 & H3 & _).
      destruct (H3 _ Hb) as (b' & Hb' & Hc').
      simpl phase_step. red. rewrite H1, H2. repeat split; auto.
      exists b'. split; congruence.
    + destruct (quiet_step_timers (SliderChange value) w I) as (H1 & H2 & H3 & _).
      destruct (H3 _ Hb) as (b' & Hb' & Hc').
      simpl phase_step. red. rewrite H1, H2. repeat split; auto.
      exists b'. split; congruence.
    + destruct (quiet_step_timers (CheckboxChange checked) w I) as (H1 & H2 & H3 & _).
      destruct (H3 _ Hb) as (b' & Hb' & Hc').
      simpl phase_step. red. rewrite H1, H2. repeat split; auto.
      exists b'. split; congruence.
    + simpl. unfold unmount. rewrite Hb. simpl. rewrite Ht, Hc, Ho. simpl.
      repeat split.
  - (* Sent *)
    destruct H as (Ht & Ho & Hm).
    assert (Hb : exists b, block w = Some b).
    { unfold is_mounted in Hm. destruct (block w); [eauto | discriminate]. }
    destruct Hb as (b & Hb). destruct e.
    + change (step w (Tick now0)) with (tick now0 w).
      rewrite (tick_no_timers now0 w Ht). simpl phase_step. red. auto.
    + destruct (quiet_step_timers (Frame elapsed) w I) as (H1 & H2 & H3 & _).
      destruct (H3 _ Hb) as (b' & Hb' & Hc').
      simpl phase_step. red. rewrite H1, H2. repeat split; auto.
      unfold is_mounted. rewrite Hb'. reflexivity.
    + destruct (quiet_step_timers (SliderChange value) w I) as (H1 & H2 & H3 & _).
      destruct (H3 _ Hb) as (b' & Hb' & Hc').
      simpl phase_step. red. rewrite H1, H2. repeat split; auto.
      unfold is_mounted. rewrite Hb'. reflexivity.
    + destruct (quiet_step_timers (CheckboxChange checked) w I) as (H1 & H2 & H3 & _).
      destruct (H3 _ Hb) as (b' & Hb' & Hc').
      simpl phase_step. red. rewrite H1, H2. repeat split; auto.
      unfold is_mounted. rewrite Hb'. reflexivity.
    + simpl. unfold unmount. rewrite Hb. simpl. rewrite Ht, Ho. repeat split.
  - (* Cancelled *)
    destruct H as (Ht & Ho & Hb).
    rewrite (step_unmounted e _ Ht Hb).
    destruct e; simpl; repeat split; assumption.
  - (* SentUnmounted *)
    destruct H as (Ht & Ho & Hb).
    rewrite (step_unmounted e _ Ht Hb).
    destruct e; simpl; repeat split; assumption.
Qed.

Lemma phase_run_sim (now : Z) (evs : list Event) (p : Phase) (w : World) :
  in_phase now p w ->
  in_phase now (fold_left (phase_step (now + 2000)) evs p) (run w evs).
Proof.
  revert p w. induction evs as [| e evs IH]; intros p w H; simpl.
  - exact H.
  - apply IH. apply phase_step_sim. exact H.
Qed.

(** The world follows the life cycle of the signal. *)
Lemma phase_sim (now : Z) (evs : list Event) :
  in_phase now (phase_after (now + 2000) evs) (run (mount now) evs).
Proof.
  apply phase_run_sim. simpl. repeat split. eexists. split; reflexivity.
Qed.

Lemma in_phase_outbox (now : Z) (p : Phase) (w : World) :
  in_phase now p w ->
  outbox w = match p with Sent | SentUnmounted => broadcast | _ => [] end.
Proof. destruct p; simpl; tauto. Qed.

Lemma phase_Sent_mounted (D : Z) (evs : list Event) :
  stays_mounted evs = true -> fold_left (phase_step D) evs Sent = Sent.
Proof.
  induction evs as [| e evs IH]; simpl; intros H; [reflexivity |].
  apply andb_true_iff in H. destruct H as [He H].
  destruct e; try discriminate He; simpl; auto.
Qed.

Lemma phase_Pending_mounted (D : Z) (evs : list Event) :
  stays_mounted evs = true ->
  fold_left (phase_step D) evs Pending = if reaches D evs then Sent else Pending.
Proof.
  induction evs as [| e evs IH]; simpl; intros H; [reflexivity |].
  apply andb_true_iff in H. destruct H as [He H].
  destruct e; try discriminate He; simpl; auto.
  destruct (D <=? now)%Z; simpl; auto using phase_Sent_mounted.
Qed.

Lemma phase_Cancelled (D : Z) (evs : list Event) :
  fold_left (phase_step D) evs Cancelled = Cancelled.
Proof. induction evs as [| e evs IH]; simpl; auto. Qed.

Lemma phase_Pending_early (D : Z) (evs : list Event) :
  reaches D evs = false ->
  fold_left (phase_step D) evs Pending = Pending
  \/ fold_left (phase_step D) evs Pending = Cancelled.
Proof.
  induction evs as [| e evs IH]; simpl; intros H; [left; reflexivity |].
  apply orb_false_iff in H. destruct H as [He H].
  destruct e; simpl; auto.
  - rewrite He. auto.
  - right. apply phase_Cancelled.
Qed.

(* ===================================================================== *)
(** ** The flag [showOrbits] *)
(* ===================================================================== *)

Lemma render_instances_flag (tbl : list PlanetProps) (st : BlockState)
  (x : bool) (ss : list SunInst) (bs : list BodyInst) :
  render_instances tbl (setShowOrbits x st) ss bs = render_instances tbl st ss bs.
Proof. reflexivity. Qed.

(** A step commutes with forgetting the flag. *)
Lemma step_forget_flag (e : Event) (w : World) :
  forget_flag (step (forget_flag w) e) = forget_flag (step w e).
Proof.
  destruct w as [tbl ts nid ob [b |]]; destruct e; reflexivity.
Qed.

Lemma step_forget_cong (e : Event) (w1 w2 : World) :
  forget_flag w1 = forget_flag w2 ->
  forget_flag (step w1 e) = forget_flag (step w2 e).
Proof.
  intros H. rewrite <- (step_forget_flag e w1), <- (step_forget_flag e w2), H.
  reflexivity.
Qed.

Lemma step_good (e : Event) (w : World) : good w -> good (step w e).
Proof.
  intros [(b & HI) | Hnone].
  - destruct (is_unmount e) eqn:He.
    + destruct e; try discriminate. right. simpl. unfold unmount.
      rewrite (inv_block HI). reflexivity.
    + left. eapply step_Inv; eauto.
  - right. destruct e; simpl; try (rewrite Hnone; exact Hnone).
    + exact Hnone.
    + unfold frame. rewrite Hnone. exact Hnone.
    + unfold unmount. rewrite Hnone. exact Hnone.
Qed.

(** Re-rendering with unchanged multiplier leaves every instance as it is. *)
Lemma rerender_same (w : World) (b : Mounted) :
  Inv w b ->
  map (rerendered (animationSpeed (state b)) (bodies b)) planetData = bodies b.
Proof.
  intros HI. pose proof (inv_bodies HI) as HF.
  assert (Hall : forall d, In d planetData ->
            exists p s rp,
              find_body (name d) (bodies b)
              = Some (body_at (animationSpeed (state b)) d p s rp)
              /\ rerendered (animationSpeed (state b)) (bodies b) d
                 = body_at (animationSpeed (state b)) d p s rp).
  { intros d Hin. apply rerendered_body_at; assumption. }
  revert Hall. generalize (rerendered (animationSpeed (state b)) (bodies b)) as g.
  generalize planetData_names_NoDup.
  unfold find_body. induction HF as [| d i tbl bs Hd HF IH]; intros Hnd g Hall.
  - reflexivity.
  - simpl. f_equal.
    + destruct (Hall d (or_introl eq_refl)) as (p & s & rp & Hfind & Hg).
      simpl in Hfind. rewrite (is_body_of_key Hd), String.eqb_refl in Hfind.
      congruence.
    + simpl in Hnd. inversion Hnd as [| ? ? Hnotin Hnd']; subst.
      apply IH; [exact Hnd' |].
      intros d' Hin'. destruct (Hall d' (or_intror Hin')) as (p & s & rp & Hfind & Hg).
      exists p, s, rp. split; [| exact Hg].
      simpl in Hfind. rewrite (is_body_of_key Hd) in Hfind.
      destruct (String.eqb_spec (name d) (name d')) as [E | NE]; [| exact Hfind].
      exfalso. apply Hnotin. rewrite E. apply in_map. exact Hin'.
Qed.

(** A checkbox event changes the flag and nothing else. *)
Lemma checkbox_absorbed (w : World) (checked : bool) :
  good w -> forget_flag (step w (CheckboxChange checked)) = forget_flag w.
Proof.
  intros [(b & HI) | Hnone].
  - rewrite (@step_CheckboxChange w b checked (inv_block HI)).
    pose proof (set_state_block (setShowOrbits checked) HI) as Hblock.
    cbn [setShowOrbits animationSpeed] in Hblock.
    rewrite (rerender_same HI) in Hblock.
    unfold forget_flag. rewrite Hblock, (inv_block HI).
    unfold set_state. rewrite (inv_block HI).
    destruct (render_instances _ _ _ _). reflexivity.
  - simpl. rewrite Hnone. reflexivity.
Qed.

Lemma run_without_checkbox (evs : list Event) (w w' : World) :
  good w -> forget_flag w = forget_flag w' ->
  forget_flag (run w evs) = forget_flag (run w' (without_checkbox evs)).
Proof.
  revert w w'. induction evs as [| e evs IH]; intros w w' Hg Heq.
  - exact Heq.
  - destruct (is_checkbox e) eqn:He.
    + destruct e; try discriminate He.
      change (forget_flag (run (step w (CheckboxChange checked)) evs)
              = forget_flag (run w' (without_checkbox evs))).
      apply IH; [apply step_good; exact Hg |].
      rewrite checkbox_absorbed; assumption.
    + replace (without_checkbox (e :: evs)) with (e :: without_checkbox evs)
        by (unfold without_checkbox; simpl filter; rewrite He; reflexivity).
      change (forget_flag (run (step w e) evs)
              = forget_flag (run (step w' e) (without_checkbox evs))).
      apply IH; [apply step_good; exact Hg |].
      apply step_forget_cong. exact Heq.
Qed.

Lemma mount_good (now : Z) : good (mount now).
Proof. left. destruct (Inv_mount now) as (b & H & _). eauto. Qed.

Lemma scene_forget_flag (w : World) : scene (forget_flag w) = scene w.
Proof. destruct w as [tbl ts nid ob [b |]]; reflexivity. Qed.

Lemma body_of_forget_flag (w : World) (k : string) :
  body_of (forget_flag w) k = body_of w k.
Proof. destruct w as [tbl ts nid ob [b |]]; reflexivity. Qed.

Lemma panel_view_forget_flag (w : World) :
  panel_view (forget_flag w) = option_map forget_checkbox (panel_view w).
Proof. destruct w as [tbl ts nid ob [b |]]; reflexivity. Qed.

(* ===================================================================== *)
(** ** Properties of the block *)
(* ===================================================================== *)

Unset Implicit Arguments.

Lemma saturn_in_table : In saturn planetData.
Proof. unfold planetData, saturn. simpl. tauto. Qed.

(** C2.  In a history during which the block stays mounted, the messages
    posted are: nothing as long as no turn of the event loop has reached
    2000 ms after the mount, and from the first such turn on exactly one
    message [{type: "BLOCK_COMPLETION", blockId: "solar-system-3d",
    completed: true}] to [window] and one to [window.parent].  In a history
    in which the block is unmounted before any turn has reached 2000 ms
    after the mount, nothing is ever posted, whatever happens afterwards. *)
Theorem completion_broadcast_once
  (now : Z) (evs pre post : list Event) :
  stays_mounted evs = true ->
  reaches (now + 2000) pre = false ->
  outbox (run (mount now) evs)
  = (if reaches (now + 2000) evs
     then [ {| target := window;
               data := {| type := "BLOCK_COMPLETION"; blockId := "solar-system-3d";
                          completed := true |};
               targetOrigin := "*" |};
            {| target := window_parent;
               data := {| type := "BLOCK_COMPLETION"; blockId := "solar-system-3d";
                          completed := true |};
               targetOrigin := "*" |} ]
     else [])
  /\ outbox (run (mount now) (pre ++ Unmount :: post)) = [].
Proof.
  intros Hm Hpre. split.
  - rewrite (in_phase_outbox _ _ _ (phase_sim now evs)).
    unfold phase_after. rewrite (phase_Pending_mounted _ _ Hm).
    destruct (reaches (now + 2000) evs); reflexivity.
  - rewrite (in_phase_outbox _ _ _ (phase_sim now (pre ++ Unmount :: post))).
    unfold phase_after. rewrite fold_left_app. simpl fold_left.
    destruct (phase_Pending_early _ _ Hpre) as [-> | ->]; simpl phase_step;
      rewrite phase_Cancelled; reflexivity.
Qed.

Lemma completion_broadcast_once_witness :
  stays_mounted [Frame 1; Tick 1999; Tick 2000; SliderChange "3"; Tick 5000] = true
  /\ reaches (0 + 2000) [Frame 1; Tick 1999] = false
  /\ outbox (run (mount 0) [Frame 1; Tick 1999; Tick 2000; SliderChange "3"; Tick 5000])
     = [ {| target := window;
            data := {| type := "BLOCK_COMPLETION"; blockId := "solar-system-3d";
                       completed := true |};
            targetOrigin := "*" |};
         {| target := window_parent;
            data := {| type := "BLOCK_COMPLETION"; blockId := "solar-system-3d";
                       completed := true |};
            targetOrigin := "*" |} ]
  /\ outbox (run (mount 0) ([Frame 1; Tick 1999] ++ Unmount :: [Tick 2000; Tick 5000])) = [].
Proof.
  split; [reflexivity | split; [reflexivity |]].
  apply (completion_broadcast_once 0
           [Frame 1; Tick 1999; Tick 2000; SliderChange "3"; Tick 5000]
           [Frame 1; Tick 1999] [Tick 2000; Tick 5000] eq_refl eq_refl).
Defined.

(** C3.  Two histories that differ only in their checkbox events (which ones
    occur, and with which values) lead to the same 3D scene: the same canvas
    elements, the same instances with the same transforms, and for every
    planet the same orbit-line mesh and ring geometry.  The control panels
    they render differ at most in the checked state of the checkbox, which
    shows the value of the latest checkbox event. *)
Theorem showOrbits_does_not_reach_scene
  (now : Z) (evs1 evs2 : list Event) :
  without_checkbox evs1 = without_checkbox evs2 ->
  scene (run (mount now) evs1) = scene (run (mount now) evs2)
  /\ (forall k : string,
        orbit_line (run (mount now) evs1) k = orbit_line (run (mount now) evs2) k
        /\ orbit_ring_geometry (run (mount now) evs1) k
           = orbit_ring_geometry (run (mount now) evs2) k)
  /\ option_map forget_checkbox (panel_view (run (mount now) evs1))
     = option_map forget_checkbox (panel_view (run (mount now) evs2))
  /\ (forall checked : bool,
        stays_mounted evs1 = true ->
        option_map ControlPanel.checkbox_checked
          (panel_view (step (run (mount now) evs1) (CheckboxChange checked)))
        = Some checked).
Proof.
  intros Heq.
  assert (H : forget_flag (run (mount now) evs1) = forget_flag (run (mount now) evs2)).
  { rewrite (run_without_checkbox evs1 (mount_good now) eq_refl).
    rewrite (run_without_checkbox evs2 (mount_good now) eq_refl).
    rewrite Heq. reflexivity. }
  split; [| split; [| split]].
  - rewrite <- (scene_forget_flag (run (mount now) evs1)), H.
    apply scene_forget_flag.
  - intros k. unfold orbit_line, orbit_ring_geometry.
    rewrite <- (body_of_forget_flag (run (mount now) evs1)), H, body_of_forget_flag.
    split; reflexivity.
  - rewrite <- !panel_view_forget_flag, H. reflexivity.
  - intros checked Hm.
    destruct (reachable_Inv now evs1 Hm) as (b & HI).
    unfold panel_view.
    rewrite (@step_CheckboxChange _ b checked (inv_block HI)).
    rewrite (set_state_block (setShowOrbits checked) HI). reflexivity.
Qed.

Lemma showOrbits_does_not_reach_scene_witness :
  without_checkbox [Frame 2; CheckboxChange false; SliderChange "1.5"; Frame 4]
  = without_checkbox [CheckboxChange true; Frame 2; SliderChange "1.5"; Frame 4]
  /\ scene (run (mount 0) [Frame 2; CheckboxChange false; SliderChange "1.5"; Frame 4])
     = scene (run (mount 0) [CheckboxChange true; Frame 2; SliderChange "1.5"; Frame 4]).
Proof.
  split; [reflexivity |].
  apply (showOrbits_does_not_reach_scene 0
           [Frame 2; CheckboxChange false; SliderChange "1.5"; Frame 4]
           [CheckboxChange true; Frame 2; SliderChange "1.5"; Frame 4] eq_refl).
Defined.

Lemma step_table (w : World) (e : Event) : table (step w e) = table w.
Proof.
  destruct e; simpl step; try reflexivity.
  - unfold frame. destruct (block w); reflexivity.
  - destruct (block w) eqn:Hb; [| reflexivity].
    unfold set_state. rewrite Hb. destruct (render_instances _ _ _ _). reflexivity.
  - destruct (block w) eqn:Hb; [| reflexivity].
    unfold set_state. rewrite Hb. destruct (render_instances _ _ _ _). reflexivity.
  - unfold unmount. destruct (block w); reflexivity.
Qed.

Lemma run_table (evs : list Event) (w : World) : table (run w evs) = table w.
Proof.
  revert w. induction evs as [| e evs IH]; intros w; simpl; [reflexivity |].
  rewrite IH. apply step_table.
Qed.

Lemma rendered_planets_names (tbl : list PlanetProps) (st : BlockState) :
  map name (rendered_planets (canvas (Block_render tbl st))) = map name tbl.
Proof.
  unfold rendered_planets.
  change (canvas (Block_render tbl st)) with (Block_canvas tbl st).
  rewrite fragments_Block_canvas, !map_map. reflexivity.
Qed.

Lemma rendered_rings_table (tbl : list PlanetProps) (st : BlockState) :
  rendered_rings (canvas (Block_render tbl st))
  = flat_map (fun d => if (name d =? "Saturn")%string
                       then [(name d, distance d)] else []) tbl.
Proof.
  unfold rendered_rings.
  change (canvas (Block_render tbl st)) with (Block_canvas tbl st).
  rewrite fragments_Block_canvas.
  induction tbl as [| d tbl IH]; simpl; [reflexivity |].
  rewrite IH. destruct (name d =? "Saturn")%string; reflexivity.
Qed.

Lemma bodies_keys (m : number) (tbl : list PlanetProps) (bs : list BodyInst) :
  Forall2 (is_body_of m) tbl bs -> map body_key bs = map name tbl.
Proof.
  induction 1 as [| d i tbl bs Hd HF IH]; simpl; [reflexivity |].
  rewrite IH, (is_body_of_key Hd). reflexivity.
Qed.

Lemma bodies_rings (m : number) (tbl : list PlanetProps) (bs : list BodyInst) :
  Forall2 (is_body_of m) tbl bs ->
  map (fun i => (body_key i, option_map rings_distance (ringsI i))) bs
  = map (fun d => (name d, if (name d =? "Saturn")%string
                           then Some (distance d) else None)) tbl.
Proof.
  induction 1 as [| d i tbl bs Hd HF IH]; simpl; [reflexivity |].
  rewrite IH. destruct Hd as (p & s & rp & ->). f_equal.
  unfold body_at. simpl. destruct (name d =? "Saturn")%string; reflexivity.
Qed.

(** C4.  Every render pass over the table yields the eight planets Mercury,
    Venus, Earth, Mars, Jupiter, Saturn, Uranus, Neptune, in this order, and
    one Sun.  No event changes the table, and while the block is mounted its
    instances are these eight bodies, in this order, and one Sun. *)
Theorem render_pass_bodies
  (now : Z) (history trace : list Event) (st : BlockState) :
  stays_mounted history = true ->
  map name (rendered_planets (canvas (Block_render planetData st))) = planet_names
  /\ length (rendered_planets (canvas (Block_render planetData st))) = 8%nat
  /\ count_suns (canvas (Block_render planetData st)) = 1%nat
  /\ table (run (mount now) trace) = planetData
  /\ exists b,
       block (run (mount now) history) = Some b
       /\ map name (rendered_planets
                      (canvas (Block_render (table (run (mount now) history)) (state b))))
          = planet_names
       /\ count_suns (canvas (Block_render (table (run (mount now) history)) (state b)))
          = 1%nat
       /\ map body_key (bodies b) = planet_names
       /\ length (suns b) = 1%nat.
Proof.
  intros Hm.
  assert (Hnames : forall s, map name (rendered_planets (canvas (Block_render planetData s)))
                             = planet_names).
  { intros s. rewrite rendered_planets_names. reflexivity. }
  split; [apply Hnames | split; [| split; [| split]]].
  - rewrite <- (length_map name), Hnames. reflexivity.
  - apply (count_suns_Block_canvas planetData st).
  - apply (run_table trace (mount now)).
  - destruct (reachable_Inv now history Hm) as (b & [Ht Hb HF (s & Hs)]).
    exists b. rewrite Ht.
    split; [exact Hb | split; [apply Hnames | split; [| split]]].
    + apply (count_suns_Block_canvas planetData (state b)).
    + rewrite (bodies_keys _ _ _ HF). reflexivity.
    + rewrite Hs. reflexivity.
Qed.

Lemma render_pass_bodies_witness :
  stays_mounted [Frame 1; SliderChange "0"; Frame 2; CheckboxChange false] = true
  /\ table (run (mount 0) [Frame 1; Unmount; Tick 3000]) = planetData
  /\ exists b,
       block (run (mount 0) [Frame 1; SliderChange "0"; Frame 2; CheckboxChange false])
       = Some b
       /\ map body_key (bodies b) = planet_names
       /\ length (suns b) = 1%nat.
Proof.
  split; [reflexivity |].
  destruct (render_pass_bodies 0
              [Frame 1; SliderChange "0"; Frame 2; CheckboxChange false]
              [Frame 1; Unmount; Tick 3000] initial_state eq_refl)
    as (_ & _ & _ & Ht & b & Hb & _ & _ & Hk & Hs).
  split; [exact Ht |]. exists b. split; [exact Hb | split; [exact Hk | exact Hs]].
Defined.

(** C5.  The table has exactly one entry named "Saturn".  Every render pass
    yields exactly one [SaturnRings] element; it sits in the fragment keyed
    "Saturn" and its [distance] prop is the distance of that entry.  While the
    block is mounted, the body keyed "Saturn" is the only one with a rings
    instance. *)
Theorem saturn_rings_unique
  (now : Z) (history : list Event) (st : BlockState) :
  stays_mounted history = true ->
  filter (fun d => (name d =? "Saturn")%string) planetData = [saturn]
  /\ rendered_rings (canvas (Block_render planetData st)) = [("Saturn", distance saturn)]
  /\ exists b,
       block (run (mount now) history) = Some b
       /\ rendered_rings
            (canvas (Block_render (table (run (mount now) history)) (state b)))
          = [("Saturn", distance saturn)]
       /\ map (fun i => (body_key i, option_map rings_distance (ringsI i))) (bodies b)
          = [ ("Mercury", None); ("Venus", None); ("Earth", None); ("Mars", None);
              ("Jupiter", None); ("Saturn", Some (distance saturn));
              ("Uranus", None); ("Neptune", None) ].
Proof.
  intros Hm.
  assert (Hrings : forall s, rendered_rings (canvas (Block_render planetData s))
                             = [("Saturn", distance saturn)]).
  { intros s. rewrite rendered_rings_table. reflexivity. }
  split; [reflexivity | split; [apply Hrings |]].
  destruct (reachable_Inv now history Hm) as (b & [Ht Hb HF Hs]).
  exists b. rewrite Ht. split; [exact Hb | split; [apply Hrings |]].
  rewrite (bodies_rings _ _ _ HF). reflexivity.
Qed.

Lemma saturn_rings_unique_witness :
  stays_mounted [Frame 1; SliderChange "4.2"; Frame 2] = true
  /\ exists b,
       block (run (mount 0) [Frame 1; SliderChange "4.2"; Frame 2]) = Some b
       /\ rendered_rings
            (canvas (Block_render (table (run (mount 0) [Frame 1; SliderChange "4.2"; Frame 2]))
                                  (state b)))
          = [("Saturn", Fin 9)].
Proof.
  split; [reflexivity |].
  destruct (saturn_rings_unique 0 [Frame 1; SliderChange "4.2"; Frame 2]
              initial_state eq_refl)
    as (_ & _ & b & Hb & Hr & _).
  exists b. split; [exact Hb | exact Hr].
Defined.

(** The change handler of the range input parses each of the 51 value
    strings of the input to the value it denotes. *)
Lemma parseFloat_range_input_value (k : nat) :
  (k <= 50)%nat ->
  parseFloat (range_input_value k) =n= Fin (inject_Z (Z.of_nat k) / 10).
Proof.
  intros Hk. apply num_eqb_spec.
  assert (Hall : forallb (fun k => num_eqb (parseFloat (range_input_value k))
                                           (Fin (inject_Z (Z.of_nat k) / 10)))
                         (seq 0 51) = true) by (vm_compute; reflexivity).
  rewrite forallb_forall in Hall. apply Hall. apply in_seq. lia.
Qed.

(** C6.  The change handler of the slider calls the callback it was given
    with the parsed value, and in [Block] that callback stores its argument:
    after a change event with value string [value] the multiplier is
    [parseFloat value], whatever it was before, and the flag is untouched.
    For the [k]-th step of the range input ([k] from 0 to 50) the stored
    multiplier is k/10. *)
Theorem slider_sets_multiplier
  (now : Z) (history : list Event) (value : string) (k : nat) :
  stays_mounted history = true ->
  (k <= 50)%nat ->
  (forall (S : Type) (p : ControlPanel.Props S) (s : S),
      ControlPanel.onChange_range p value s
      = ControlPanel.setAnimationSpeed p (parseFloat value) s)
  /\ multiplier (step (run (mount now) history) (SliderChange value))
     = Some (parseFloat value)
  /\ option_map (fun b => showOrbits (state b))
                (block (step (run (mount now) history) (SliderChange value)))
     = option_map (fun b => showOrbits (state b)) (block (run (mount now) history))
  /\ exists v,
       multiplier (step (run (mount now) history) (SliderChange (range_input_value k)))
       = Some v
       /\ v =n= Fin (inject_Z (Z.of_nat k) / 10).
Proof.
  intros Hm Hk.
  destruct (reachable_Inv now history Hm) as (b & HI).
  assert (Hset : forall v,
             block (step (run (mount now) history) (SliderChange v))
             = Some {| state := setAnimationSpeed (parseFloat v) (state b);
                       cleanup_timer := cleanup_timer b;
                       suns := suns b;
                       bodies := map (rerendered (parseFloat v) (bodies b)) planetData |}).
  { intros v. rewrite (@step_SliderChange _ b v (inv_block HI)).
    apply (set_state_block (setAnimationSpeed (parseFloat v)) HI). }
  split; [reflexivity | split; [| split]].
  - unfold multiplier. rewrite Hset. reflexivity.
  - rewrite Hset, (inv_block HI). reflexivity.
  - exists (parseFloat (range_input_value k)). split.
    + unfold multiplier. rewrite Hset. reflexivity.
    + apply parseFloat_range_input_value. exact Hk.
Qed.

Lemma slider_sets_multiplier_witness :
  stays_mounted [Frame 1; SliderChange "0.3"; Tick 2500] = true
  /\ (37 <= 50)%nat
  /\ exists v,
       multiplier (step (run (mount 0) [Frame 1; SliderChange "0.3"; Tick 2500])
                        (SliderChange "3.7")) = Some v
       /\ v =n= Fin 3.7.
Proof.
  split; [reflexivity | split; [lia |]].
  destruct (slider_sets_multiplier 0 [Frame 1; SliderChange "0.3"; Tick 2500]
              "3.7" 37 eq_refl ltac:(lia))
    as (_ & _ & _ & v & Hv & Hq).
  exists v. split; [exact Hv |].
  eapply num_eq_trans; [exact Hq |]. vm_compute. reflexivity.
Defined.

Lemma stays_mounted_app (xs ys : list Event) :
  stays_mounted (xs ++ ys) = true ->
  stays_mounted xs = true /\ stays_mounted ys = true.
Proof. unfold stays_mounted. rewrite forallb_app. apply andb_true_iff. Qed.

(** C9.  While the block is mounted, the orbit-line mesh of every planet sits
    at the origin of its group with rotation (Math.PI / 2, 0, 0), and its
    geometry is the ring from [distance - 0.01] to [distance + 0.01] with 64
    segments.  A frame callback does not touch it: of the instances under a
    planet's fragment a frame changes only [rotation.y] of the pivot group,
    [rotation.y] of the body mesh and (for Saturn) [rotation.y] of the pivot
    of the rings. *)
Theorem orbit_ring_never_mutated
  (now : Z) (history : list Event) (d : PlanetProps) (t : Q) :
  In d planetData ->
  stays_mounted history = true ->
  orbit_line (run (mount now) history) (name d)
  = Some {| position := {| vx := zero; vy := zero; vz := zero |};
            rotation := {| ex := Math_PI_half; ey := zero; ez := zero |} |}
  /\ orbit_ring_geometry (run (mount now) history) (name d)
     = Some (ringGeometry (distance d - Fin 0.01) (distance d + Fin 0.01) 64)
  /\ orbit_line (step (run (mount now) history) (Frame t)) (name d)
     = orbit_line (run (mount now) history) (name d)
  /\ (forall (e : number) (i : PlanetInst),
        orbitLine (Planet_useFrame e i) = orbitLine i
        /\ planet_props (Planet_useFrame e i) = planet_props i)
  /\ exists m p s rp,
       body_of (run (mount now) history) (name d) = Some (body_at m d p s rp)
       /\ body_of (step (run (mount now) history) (Frame t)) (name d)
          = Some (body_at m d
                    (set_rotation_y p (Fin t * (speed d * m)))
                    (s + Fin 0.02)
                    (set_rotation_y rp (Fin t * Fin 0.004))).
Proof.
  intros Hin Hm.
  destruct (reachable_Inv now history Hm) as (b & HI).
  destruct (body_of_after_frame t HI Hin) as (p & s & rp & Hbody & Hbody').
  change (step (run (mount now) history) (Frame t))
    with (frame t (run (mount now) history)).
  unfold orbit_line, orbit_ring_geometry. rewrite Hbody', Hbody.
  split; [reflexivity | split; [reflexivity | split; [reflexivity | split]]].
  - intros e i. split; reflexivity.
  - exists (animationSpeed (state b)), p, s, rp. split; reflexivity.
Qed.

Lemma orbit_ring_never_mutated_witness :
  In saturn planetData
  /\ stays_mounted [Frame 3; SliderChange "2"; Frame 4; CheckboxChange false] = true
  /\ orbit_ring_geometry
       (run (mount 0) [Frame 3; SliderChange "2"; Frame 4; CheckboxChange false]) "Saturn"
     = Some (ringGeometry (Fin 9 - Fin 0.01) (Fin 9 + Fin 0.01) 64)
  /\ orbit_line
       (step (run (mount 0) [Frame 3; SliderChange "2"; Frame 4; CheckboxChange false])
             (Frame 5)) "Saturn"
     = orbit_line
         (run (mount 0) [Frame 3; SliderChange "2"; Frame 4; CheckboxChange false]) "Saturn".
Proof.
  split; [exact saturn_in_table | split; [reflexivity |]].
  destruct (orbit_ring_never_mutated 0
              [Frame 3; SliderChange "2"; Frame 4; CheckboxChange false]
              saturn 5 saturn_in_table eq_refl)
    as (_ & H2 & H3 & _).
  split; [exact H2 | exact H3].
Defined.

(* ===================================================================== *)
(** ** Further properties: the completion signal and its timer *)
(* ===================================================================== *)

Lemma is_sent_from_Sent (D : Z) (evs : list Event) :
  is_sent (fold_left (phase_step D) evs Sent) = true
  /\ is_sent (fold_left (phase_step D) evs SentUnmounted) = true.
Proof.
  induction evs as [| e evs [IH1 IH2]]; simpl; [split; reflexivity |].
  destruct e; simpl; split; assumption.
Qed.

Lemma is_sent_phase_after (D : Z) (evs : list Event) :
  is_sent (phase_after D evs) = signal_sent D evs.
Proof.
  unfold phase_after. induction evs as [| e evs IH]; [reflexivity |].
  destruct e; simpl; try exact IH.
  - destruct (D <=? now)%Z; simpl; [apply is_sent_from_Sent | exact IH].
  - rewrite phase_Cancelled. reflexivity.
Qed.

(** X1.  The signal is sent at most once, whatever happens: the messages posted
    over any history, with any number of unmounts and late turns of the event
    loop, are the one broadcast if a turn reached 2000 ms after the mount
    before the first unmount, and nothing otherwise. *)
Theorem outbox_of_any_history (now : Z) (evs : list Event) :
  outbox (run (mount now) evs)
  = if signal_sent (now + 2000) evs
    then [ {| target := window; data := completion; targetOrigin := "*" |};
           {| target := window_parent; data := completion; targetOrigin := "*" |} ]
    else [].
Proof.
  rewrite (in_phase_outbox _ _ _ (phase_sim now evs)).
  rewrite <- is_sent_phase_after.
  destruct (phase_after (now + 2000) evs); reflexivity.
Qed.

Lemma Pending_iff_timer (D : Z) (evs : list Event) (p : Phase) :
  p <> Pending -> fold_left (phase_step D) evs p <> Pending.
Proof.
  revert p. induction evs as [| e evs IH]; intros p Hp; simpl; [exact Hp |].
  apply IH. destruct p, e; simpl; try congruence.
Qed.

Lemma phase_after_timer_gone (D : Z) (evs : list Event) :
  timer_gone D evs = false <-> phase_after D evs = Pending.
Proof.
  unfold phase_after, timer_gone.
  induction evs as [| e evs IH]; simpl; [tauto |].
  destruct e; simpl; try exact IH.
  - destruct (D <=? now)%Z; simpl; [| exact IH].
    split; [discriminate |]. intros H. exfalso.
    revert H. apply Pending_iff_timer. discriminate.
  - split; [discriminate |]. intros H. exfalso.
    revert H. apply Pending_iff_timer. discriminate.
Qed.

Lemma step_next_timer_id (w : World) (e : Event) :
  next_timer_id (step w e) = next_timer_id w.
Proof.
  destruct e; simpl step; try reflexivity.
  - unfold frame. destruct (block w); reflexivity.
  - destruct (block w) eqn:Hb; [| reflexivity].
    unfold set_state. rewrite Hb. destruct (render_instances _ _ _ _). reflexivity.
  - destruct (block w) eqn:Hb; [| reflexivity].
    unfold set_state. rewrite Hb. destruct (render_instances _ _ _ _). reflexivity.
  - unfold unmount. destruct (block w); reflexivity.
Qed.

Lemma run_next_timer_id (evs : list Event) (w : World) :
  next_timer_id (run w evs) = next_timer_id w.
Proof.
  revert w. induction evs as [| e evs IH]; intros w; simpl; [reflexivity |].
  rewrite IH. apply step_next_timer_id.
Qed.

Lemma run_unmounted (evs : list Event) (w : World) :
  timers w = [] -> block w = None -> run w evs = w.
Proof.
  intros Ht Hb. induction evs as [| e evs IH]; simpl; [reflexivity |].
  rewrite (step_unmounted e w Ht Hb). exact IH.
Qed.

(** X2.  No timer is left behind and none is added.  Over any history the timer
    queue holds the one timer armed at mount until a turn of the event loop
    reaches its deadline or the block is unmounted, and is empty from then
    on; re-renders never arm another timer.  After an unmount no event
    changes the world any more. *)
Theorem timer_queue_of_any_history (now : Z) (evs post : list Event) :
  timers (run (mount now) evs)
  = (if timer_gone (now + 2000) evs
     then []
     else [ {| timer_id := 1; due := now + 2000; callback := send_completion |} ])
  /\ next_timer_id (run (mount now) evs) = 2%nat
  /\ run (mount now) (evs ++ Unmount :: post) = run (mount now) (evs ++ [Unmount]).
Proof.
  split; [| split].
  - pose proof (phase_sim now evs) as H.
    destruct (timer_gone (now + 2000) evs) eqn:Hg.
    + destruct (phase_after (now + 2000) evs) eqn:Hp; simpl in H; try tauto.
      apply phase_after_timer_gone in Hp. congruence.
    + apply phase_after_timer_gone in Hg. rewrite Hg in H. simpl in H. tauto.
  - apply (run_next_timer_id evs (mount now)).
  - replace (evs ++ Unmount :: post) with ((evs ++ [Unmount]) ++ post)
      by (rewrite <- app_assoc; reflexivity).
    rewrite (run_app (mount now) (evs ++ [Unmount]) post).
    pose proof (phase_sim now (evs ++ [Unmount])) as H.
    unfold phase_after in H. rewrite fold_left_app in H. simpl fold_left in H.
    apply run_unmounted.
    + destruct (fold_left (phase_step (now + 2000)) evs Pending);
        simpl in H; tauto.
    + destruct (fold_left (phase_step (now + 2000)) evs Pending);
        simpl in H; tauto.
Qed.

(* ===================================================================== *)
(** ** Further properties: re-renders and the scene *)
(* ===================================================================== *)

(** A re-render with multiplier [m'] gives every body the new [speed] prop
    and keeps its refs and transforms. *)
Lemma rerender_keeps_refs (m m' : number) (old : list BodyInst) :
  Forall2 (is_body_of m) planetData old ->
  map body_pose (map (rerendered m' old) planetData) = map body_pose old.
Proof.
  intros HF.
  assert (Hall : forall d, In d planetData ->
            exists p s rp,
              find_body (name d) old = Some (body_at m d p s rp)
              /\ rerendered m' old d = body_at m' d p s rp).
  { intros d Hin. apply rerendered_body_at; assumption. }
  revert Hall. generalize (rerendered m' old) as g.
  generalize planetData_names_NoDup.
  unfold find_body. induction HF as [| d i tbl bs Hd HF IH]; intros Hnd g Hall.
  - reflexivity.
  - simpl. f_equal.
    + destruct (Hall d (or_introl eq_refl)) as (p & s & rp & Hfind & Hg).
      simpl in Hfind. rewrite (is_body_of_key Hd), String.eqb_refl in Hfind.
      injection Hfind as ->. rewrite Hg. reflexivity.
    + simpl in Hnd. inversion Hnd as [| ? ? Hnotin Hnd']; subst.
      apply IH; [exact Hnd' |].
      intros d' Hin'. destruct (Hall d' (or_intror Hin')) as (p & s & rp & Hfind & Hg).
      exists p, s, rp. split; [| exact Hg].
      simpl in Hfind. rewrite (is_body_of_key Hd) in Hfind.
      destruct (String.eqb_spec (name d) (name d')) as [E | NE]; [| exact Hfind].
      exfalso. apply Hnotin. rewrite E. apply in_map. exact Hin'.
Qed.

Lemma set_state_pose (f : BlockState -> BlockState) (w : World) (b : Mounted) :
  Inv w b -> world_pose (set_state f w) = world_pose w.
Proof.
  intros HI. unfold world_pose.
  rewrite (set_state_block f HI), (inv_block HI). cbn [option_map suns bodies].
  rewrite (rerender_keeps_refs _ (animationSpeed (f (state b))) _ (inv_bodies HI)).
  reflexivity.
Qed.

Lemma quiet_run_pose (evs : list Event) (w : World) (b : Mounted) :
  Inv w b -> stays_mounted evs = true -> count_frames evs = 0%nat ->
  world_pose (run w evs) = world_pose w.
Proof.
  revert w b. induction evs as [| e evs IH]; intros w b HI Hm Hc; [reflexivity |].
  simpl in Hm. apply andb_true_iff in Hm. destruct Hm as [He Hm].
  rewrite count_frames_cons in Hc.
  change (run w (e :: evs)) with (run (step w e) evs).
  destruct e; try discriminate.
  - change (step w (Tick now)) with (tick now w).
    rewrite (IH _ _ (tick_Inv now HI) Hm Hc). reflexivity.
  - rewrite (@step_SliderChange w b value (inv_block HI)).
    destruct (set_state_Inv (setAnimationSpeed (parseFloat value)) HI) as (b' & HI' & _).
    rewrite (IH _ _ HI' Hm Hc). apply (set_state_pose _ _ _ HI).
  - rewrite (@step_CheckboxChange w b checked (inv_block HI)).
    destruct (set_state_Inv (setShowOrbits checked) HI) as (b' & HI' & _).
    rewrite (IH _ _ HI' Hm Hc). apply (set_state_pose _ _ _ HI).
Qed.

Lemma find_body_pose (k : string) (bs bs' : list BodyInst) :
  map body_pose bs = map body_pose bs' ->
  option_map body_pose (find_body k bs) = option_map body_pose (find_body k bs').
Proof.
  revert bs'.
  induction bs as [| i bs IH]; destruct bs' as [| i' bs']; intros H;
    try discriminate H; [reflexivity |].
  cbn [map] in H.
  assert (Hi : body_pose i = body_pose i') by congruence.
  assert (Hrest : map body_pose bs = map body_pose bs') by congruence.
  assert (Hk : body_key i = body_key i')
    by (unfold body_pose in Hi; congruence).
  unfold find_body. cbn [find]. rewrite Hk.
  destruct (body_key i' =? k)%string.
  - cbn [option_map]. rewrite Hi. reflexivity.
  - apply IH. exact Hrest.
Qed.

Lemma body_of_pose (w w' : World) (k : string) :
  world_pose w = world_pose w' ->
  option_map body_pose (body_of w k) = option_map body_pose (body_of w' k).
Proof.
  unfold world_pose, body_of.
  destruct (block w) as [b |], (block w') as [b' |]; simpl; try discriminate.
  - intros H. apply find_body_pose. congruence.
  - reflexivity.
Qed.

Lemma observations_of_pose (w w' : World) (k : string) :
  world_pose w = world_pose w' ->
  orbital_angle w k = orbital_angle w' k
  /\ spin_angle w k = spin_angle w' k
  /\ ring_angle w k = ring_angle w' k
  /\ orbit_line w k = orbit_line w' k
  /\ sun_spins w = sun_spins w'.
Proof.
  intros H. pose proof (body_of_pose w w' k H) as Hb.
  unfold orbital_angle, spin_angle, ring_angle, orbit_line, sun_spins.
  assert (Hs : option_map suns (block w) = option_map suns (block w')).
  { unfold world_pose in H.
    destruct (block w), (block w'); simpl in *; congruence. }
  assert (Hsuns : sun_spins w = sun_spins w').
  { unfold sun_spins.
    destruct (block w), (block w'); simpl in Hs; try discriminate;
      [injection Hs as ->; reflexivity | reflexivity]. }
  unfold sun_spins in Hsuns.
  destruct (body_of w k) as [i |], (body_of w' k) as [i' |];
    cbn [option_map] in *; try discriminate Hb.
  - assert (Hi : body_pose i = body_pose i') by congruence.
    unfold body_pose in Hi.
    assert (Hp : planetRef (planetI i) = planetRef (planetI i')) by congruence.
    assert (Hmesh : meshRef (planetI i) = meshRef (planetI i')) by congruence.
    assert (Ho : orbitLine (planetI i) = orbitLine (planetI i')) by congruence.
    assert (Hr : option_map (fun r => (ringsRef r, ringMesh r)) (ringsI i)
                 = option_map (fun r => (ringsRef r, ringMesh r)) (ringsI i'))
      by congruence.
    rewrite Hp, Hmesh, Ho.
    split; [reflexivity | split; [reflexivity | split; [| split; [reflexivity | exact Hsuns]]]].
    destruct (ringsI i), (ringsI i'); cbn [option_map] in Hr; try discriminate Hr;
      [| reflexivity].
    assert (Hrr : ringsRef r = ringsRef r0) by congruence.
    rewrite Hrr. reflexivity.
  - repeat split. exact Hsuns.
Qed.

(** X4.  Nothing moves between frames.  Events other than frames (slider and
    checkbox changes, turns of the event loop) re-render the block but leave
    every ref and every transform as it is: orbital angles, spins, the ring
    pivot and the orbit lines are those of the last frame. *)
Theorem only_frames_move_the_scene
  (now : Z) (before evs : list Event) (k : string) :
  stays_mounted (before ++ evs) = true ->
  count_frames evs = 0%nat ->
  world_pose (run (run (mount now) before) evs) = world_pose (run (mount now) before)
  /\ orbital_angle (run (run (mount now) before) evs) k
     = orbital_angle (run (mount now) before) k
  /\ spin_angle (run (run (mount now) before) evs) k
     = spin_angle (run (mount now) before) k
  /\ ring_angle (run (run (mount now) before) evs) k
     = ring_angle (run (mount now) before) k
  /\ orbit_line (run (run (mount now) before) evs) k
     = orbit_line (run (mount now) before) k
  /\ sun_spins (run (run (mount now) before) evs)
     = sun_spins (run (mount now) before).
Proof.
  intros Hm Hc. apply stays_mounted_app in Hm. destruct Hm as [Hm0 Hm1].
  destruct (reachable_Inv now before Hm0) as (b & HI).
  pose proof (quiet_run_pose evs _ _ HI Hm1 Hc) as Hpose.
  split; [exact Hpose |].
  apply observations_of_pose. exact Hpose.
Qed.

Lemma only_frames_move_the_scene_witness :
  stays_mounted ([Frame 10; Frame 20]
                 ++ [SliderChange "4.5"; Tick 2100; CheckboxChange false; SliderChange "0"])
  = true
  /\ count_frames [SliderChange "4.5"; Tick 2100; CheckboxChange false; SliderChange "0"]
     = 0%nat
  /\ orbital_angle
       (run (run (mount 0) [Frame 10; Frame 20])
            [SliderChange "4.5"; Tick 2100; CheckboxChange false; SliderChange "0"])
       "Mars"
     = orbital_angle (run (mount 0) [Frame 10; Frame 20]) "Mars".
Proof.
  split; [reflexivity | split; [reflexivity |]].
  apply (only_frames_move_the_scene 0 [Frame 10; Frame 20]
           [SliderChange "4.5"; Tick 2100; CheckboxChange false; SliderChange "0"]
           "Mars" eq_refl eq_refl).
Defined.

(** X3.  The change handler of the checkbox stores the checked state in the flag
    and changes nothing else: the multiplier, every instance, the timer
    queue and the outbox stay as they were. *)
Theorem checkbox_sets_flag_only
  (now : Z) (history : list Event) (checked : bool) :
  stays_mounted history = true ->
  exists b b',
    block (run (mount now) history) = Some b
    /\ block (step (run (mount now) history) (CheckboxChange checked)) = Some b'
    /\ showOrbits (state b') = checked
    /\ animationSpeed (state b') = animationSpeed (state b)
    /\ suns b' = suns b
    /\ bodies b' = bodies b
    /\ timers (step (run (mount now) history) (CheckboxChange checked))
       = timers (run (mount now) history)
    /\ outbox (step (run (mount now) history) (CheckboxChange checked))
       = outbox (run (mount now) history).
Proof.
  intros Hm. destruct (reachable_Inv now history Hm) as (b & HI).
  pose proof (set_state_block (setShowOrbits checked) HI) as Hblock.
  cbn [setShowOrbits animationSpeed] in Hblock.
  rewrite (rerender_same HI) in Hblock.
  destruct (quiet_step_timers (CheckboxChange checked) (run (mount now) history) I)
    as (Ht & Ho & _).
  rewrite (@step_CheckboxChange _ b checked (inv_block HI)) in *.
  eexists. eexists.
  split; [exact (inv_block HI) |]. split; [exact Hblock |].
  repeat split; assumption.
Qed.

Lemma checkbox_sets_flag_only_witness :
  stays_mounted [Frame 5; SliderChange "2"; Frame 6] = true
  /\ exists b',
       block (step (run (mount 0) [Frame 5; SliderChange "2"; Frame 6])
                   (CheckboxChange false)) = Some b'
       /\ showOrbits (state b') = false.
Proof.
  split; [reflexivity |].
  destruct (checkbox_sets_flag_only 0 [Frame 5; SliderChange "2"; Frame 6] false eq_refl)
    as (b & b' & _ & Hb' & Hflag & _).
  exists b'. split; [exact Hb' | exact Hflag].
Defined.

(* ===================================================================== *)
(** ** Properties of the frame arithmetic in binary64 *)
(* ===================================================================== *)

Module F64Props.

Import Floats.
Import F64.
#[local] Set Warnings "-inexact-float".
#[local] Open Scope float_scope.

(** *** Every reachable world is the world of its summary *)

Lemma mount_summary : mount = world_of_summary initial_summary.
Proof. reflexivity. Qed.

Lemma step_summary (s : Summary) (e : Event) :
  step (world_of_summary s) e = world_of_summary (absorb s e).
Proof. destruct s as [m fl [[t m0] |] n]; destruct e; reflexivity. Qed.

Lemma run_summary (evs : list Event) (s : Summary) :
  run (world_of_summary s) evs = world_of_summary (fold_left absorb evs s).
Proof.
  revert s. induction evs as [| e evs IH]; intros s; [reflexivity |].
  simpl fold_left. rewrite <- IH.
  change (run (world_of_summary s) (e :: evs))
    with (run (step (world_of_summary s) e) evs).
  rewrite step_summary. reflexivity.
Qed.

Lemma reachable_summary (evs : list Event) :
  run mount evs = world_of_summary (summary_of evs).
Proof. rewrite mount_summary. apply run_summary. Qed.

Lemma run_run_summary (before evs : list Event) :
  run (run mount before) evs
  = world_of_summary (fold_left absorb evs (summary_of before)).
Proof. rewrite reachable_summary. apply run_summary. Qed.

(** What is observed in the world of a summary. *)
Lemma observe_orbital (s : Summary) (d : PlanetProps) :
  In d planetData ->
  orbital_angle (world_of_summary s) (name d) = Some (pivot_after s d).
Proof.
  unfold planetData. simpl In. intros H.
  repeat (destruct H as [<- | H]; [reflexivity |]). contradiction.
Qed.

Lemma observe_spin (s : Summary) (d : PlanetProps) :
  In d planetData ->
  spin_angle (world_of_summary s) (name d) = Some (spin_after (frames s) 0.02).
Proof.
  unfold planetData. simpl In. intros H.
  repeat (destruct H as [<- | H]; [reflexivity |]). contradiction.
Qed.

Lemma observe_ring (s : Summary) :
  ring_angle (world_of_summary s) "Saturn" = Some (ring_pivot_after s).
Proof. reflexivity. Qed.

Lemma observe_sun (s : Summary) :
  sun_spin (world_of_summary s) = Some (spin_after (frames s) 0.01).
Proof. reflexivity. Qed.

Lemma frames_absorbed (evs : list Event) (s : Summary) :
  frames (fold_left absorb evs s) = (count_frames evs + frames s)%nat.
Proof.
  revert s. induction evs as [| e evs IH]; intros s; [reflexivity |].
  simpl fold_left. rewrite IH. unfold count_frames.
  destruct e; simpl; lia.
Qed.

Lemma spin_after_add (n k : nat) (c : float) :
  spin_after (n + k) c = Nat.iter n (fun y => y + c) (spin_after k c).
Proof. unfold spin_after. apply Nat.iter_add. Qed.

(** *** Two facts of binary64 multiplication *)

Lemma mul_nan_r (t : float) : t * nan = nan.
Proof.
  apply Prim2SF_inj. rewrite mul_spec.
  change (Prim2SF nan) with S754_nan.
  destruct (Prim2SF t); reflexivity.
Qed.



Lemma table_speed_times_nan (d : PlanetProps) :
  In d planetData -> speed d * nan = nan.
Proof. intros _. apply mul_nan_r. Qed.

Lemma earth_in_planetData :
  In earth planetData.
Proof. unfold planetData, earth. simpl. tauto. Qed.

(** Two doubles are different when [eqb] tells them apart. *)
Lemma float_neq (x y : float) : (x =? y) = false -> (y =? y) = true -> x <> y.
Proof. intros H1 H2 E. rewrite E in H1. congruence. Qed.


Lemma multiplier_summary (s : Summary) :
  multiplier (world_of_summary s) = now_speed s.
Proof. reflexivity. Qed.

(** The orbital angle a frame sets, in any reachable world. *)
Lemma orbital_angle_after_frame (history : list Event) (d : PlanetProps) (t : float) :
  In d planetData ->
  orbital_angle (step (run mount history) (Frame t)) (name d)
  = Some (t * (speed d * multiplier (run mount history))).
Proof.
  intros Hin. rewrite reachable_summary, step_summary, multiplier_summary.
  exact (observe_orbital (absorb (summary_of history) (Frame t)) d Hin).
Qed.

Lemma ring_angle_after_frame (history : list Event) (t : float) :
  ring_angle (step (run mount history) (Frame t)) "Saturn" = Some (t * 0.004).
Proof. rewrite reachable_summary, step_summary. apply observe_ring. Qed.

Lemma multiplier_after_slider (w : World) (v : float) :
  multiplier (step w (SliderChange v)) = v.
Proof. reflexivity. Qed.

Lemma run_step_last (w : World) (evs : list Event) (e : Event) :
  run w (evs ++ [e]) = step (run w evs) e.
Proof. unfold run. rewrite fold_left_app. reflexivity. Qed.




(** C7.  Take any reachable world and any further events, [n] of them
    frames.  The spin angle of every planet is its old value with 0.02 added
    [n] times, and that of the Sun its old value with 0.01 added [n] times,
    each addition rounded to binary64, whatever clock readings the frames
    carried and whatever the slider was set to in between. *)
Theorem spin_fixed_step_per_frame
  (before evs : list Event) (d : PlanetProps) :
  In d planetData ->
  (exists a a',
      spin_angle (run mount before) (name d) = Some a
      /\ spin_angle (run (run mount before) evs) (name d) = Some a'
      /\ a' = Nat.iter (count_frames evs) (fun y => y + 0.02) a)
  /\ (exists s s',
        sun_spin (run mount before) = Some s
        /\ sun_spin (run (run mount before) evs) = Some s'
        /\ s' = Nat.iter (count_frames evs) (fun y => y + 0.01) s).
Proof.
  intros Hin. rewrite run_run_summary, reachable_summary. split.
  - eexists. eexists.
    split; [apply (observe_spin _ d Hin) |].
    split; [apply (observe_spin _ d Hin) |].
    rewrite frames_absorbed. apply spin_after_add.
  - eexists. eexists.
    split; [apply observe_sun |]. split; [apply observe_sun |].
    rewrite frames_absorbed. apply spin_after_add.
Qed.

Lemma spin_fixed_step_per_frame_witness :
  In earth planetData
  /\ exists a a',
       spin_angle (run mount [Frame 1; Frame 2]) "Earth" = Some a
       /\ spin_angle (run (run mount [Frame 1; Frame 2])
                          [Frame 10; SliderChange 5; Frame 500; Frame 501])
                     "Earth" = Some a'
       /\ a' = Nat.iter 3 (fun y => y + 0.02) a.
Proof.
  split; [exact earth_in_planetData |].
  exact (proj1 (spin_fixed_step_per_frame [Frame 1; Frame 2]
                  [Frame 10; SliderChange 5; Frame 500; Frame 501] earth earth_in_planetData)).
Defined.

(** Against C7 as stated.  Six frames after the mount (initial spin 0)
    Earth's spin is 0.12000000000000001 and the Sun's is
    0.060000000000000005: not 0 + 6 * 0.02 and 0 + 6 * 0.01, neither as
    doubles nor as real numbers. *)
Lemma spin_fixed_step_per_frame_counterexample :
  spin_angle mount "Earth" = Some 0
  /\ sun_spin mount = Some 0
  /\ count_frames [Frame 1; Frame 2; Frame 3; Frame 4; Frame 5; Frame 6] = 6%nat
  /\ spin_angle (run mount [Frame 1; Frame 2; Frame 3; Frame 4; Frame 5; Frame 6]) "Earth"
     = Some 0.12000000000000001
  /\ sun_spin (run mount [Frame 1; Frame 2; Frame 3; Frame 4; Frame 5; Frame 6])
     = Some 0.060000000000000005
  /\ 0.12000000000000001 <> 0 + 6 * 0.02
  /\ 0.060000000000000005 <> 0 + 6 * 0.01
  /\ exists p s c1 c2 : Q,
       exact 0.12000000000000001 = Some p
       /\ exact 0.060000000000000005 = Some s
       /\ exact 0.02 = Some c1
       /\ exact 0.01 = Some c2
       /\ ~ (p == 0 + 6 * 0.02)%Q /\ ~ (p == 0 + 6 * c1)%Q
       /\ ~ (s == 0 + 6 * 0.01)%Q /\ ~ (s == 0 + 6 * c2)%Q.
Proof.
  repeat (split; [reflexivity |]).
  split; [apply float_neq; reflexivity |].
  split; [apply float_neq; reflexivity |].
  eexists. eexists. eexists. eexists.
  repeat (split; [reflexivity |]).
  repeat split; intros H; vm_compute in H; discriminate H.
Qed.






(** X5.  The slider handler stores what [parseFloat] returned without a
    check.  When that is [NaN] (a value string without a numeric prefix),
    the next frame sets every planet's orbital angle to [NaN], at every
    clock reading, while the spins and the ring pivot go on as usual.
    Because the angle is recomputed from the clock, the first frame after
    the next slider change puts every planet back at [t' * (speed * m')]. *)
Theorem unparsable_slider_value
  (history : list Event) (d : PlanetProps) (t t' m' : float) :
  In d planetData ->
  multiplier (step (run mount history) (SliderChange nan)) = nan
  /\ orbital_angle (step (step (run mount history) (SliderChange nan)) (Frame t)) (name d)
     = Some nan
  /\ ring_angle (step (step (run mount history) (SliderChange nan)) (Frame t)) "Saturn"
     = Some (t * 0.004)
  /\ (exists a,
        spin_angle (run mount history) (name d) = Some a
        /\ spin_angle (step (step (run mount history) (SliderChange nan)) (Frame t))
                      (name d)
           = Some (a + 0.02))
  /\ orbital_angle
       (step (step (step (step (run mount history) (SliderChange nan)) (Frame t))
                   (SliderChange m'))
             (Frame t'))
       (name d)
     = Some (t' * (speed d * m')).
Proof.
  intros Hin.
  split; [reflexivity | split; [| split; [| split]]].
  - rewrite <- (run_step_last mount history (SliderChange nan)).
    rewrite (orbital_angle_after_frame _ d t Hin).
    rewrite run_step_last, multiplier_after_slider.
    rewrite (table_speed_times_nan d Hin), mul_nan_r. reflexivity.
  - rewrite <- (run_step_last mount history (SliderChange nan)).
    apply ring_angle_after_frame.
  - exists (spin_after (frames (summary_of history)) 0.02).
    rewrite reachable_summary, !step_summary.
    split; [apply (observe_spin _ d Hin) |].
    exact (observe_spin (absorb (absorb (summary_of history) (SliderChange nan)) (Frame t))
                        d Hin).
  - rewrite <- (run_step_last mount history (SliderChange nan)).
    rewrite <- (run_step_last mount (history ++ [SliderChange nan]) (Frame t)).
    rewrite <- (run_step_last mount ((history ++ [SliderChange nan]) ++ [Frame t])
                         (SliderChange m')).
    rewrite (orbital_angle_after_frame _ d t' Hin).
    rewrite run_step_last, multiplier_after_slider. reflexivity.
Qed.

Lemma unparsable_slider_value_witness :
  In earth planetData
  /\ orbital_angle (step (step (run mount [Frame 1; SliderChange 3]) (SliderChange nan))
                         (Frame 2))
                   "Earth"
     = Some nan.
Proof.
  split; [exact earth_in_planetData |].
  exact (proj1 (proj2 (unparsable_slider_value [Frame 1; SliderChange 3] earth 2 2 1
                                               earth_in_planetData))).
Defined.



End F64Props.
